(** * fxGlue: the texture / program registry of [GlueTexture.ts]

    A shallow embedding of [src/GlueUtils.ts] (source readiness and
    dimensions) and [src/GlueTexture.ts] (the [GlueTexture] class), and the
    properties of the texture-program compositing pipeline proved on it.

    - JavaScript numbers are IEEE 754 binary64 values: [number] is Rocq's
      primitive [float], so [x / this._width] is the very division the
      program performs.
    - A method is a function from the world (the object's fields and the
      commands issued so far on the WebGL context) to a completion and a new
      world; a [throw] keeps every mutation made before it.
    - The two [Record<string, _>] objects are plain objects: a finite map
      of their own string keys, read through [get], which falls back on
      the members every plain object inherits from [Object.prototype]. *)

From Stdlib Require Import ZArith PrimFloat.
From Stdlib Require Uint63 Floats.
From stdpp Require Import base option list strings gmap.

Open Scope string_scope.
Open Scope list_scope.

(** ** JavaScript values *)

Abbreviation number := float.

(** [ToBoolean] on a number: [+0], [-0] and [NaN] are falsy. *)
Definition truthy (n : number) : bool :=
  negb (PrimFloat.is_zero n || PrimFloat.is_nan n).

(** [a || b] on an optional string: [undefined] and [''] are falsy. *)
Definition or_string (a : option string) (b : string) : string :=
  match a with
  | Some s => if decide (s = "") then b else s
  | None => b
  end.

(** [a || b] on an optional number. *)
Definition or_number (a : option number) (b : number) : number :=
  match a with
  | Some v => if truthy v then v else b
  | None => b
  end.

(** DOM attributes such as [naturalHeight] are WebIDL [unsigned long]
    values; read as a JavaScript number they are exact. *)
Definition number_of_N (n : N) : number :=
  PrimFloat.of_uint63 (Uint63.of_Z (Z.of_N n)).

(** [new Error(message)] *)
Record Error := { message : string }.

(** *** Plain objects used as maps

    [_programs] and [_imports] are created as [{}], so they inherit the
    members of [Object.prototype]. [object[name]] reads an own property
    first and an inherited member otherwise; every inherited member is a
    function, or for ['__proto__'] the prototype object itself, hence
    truthy and with no [dispose] member. *)
Definition Object_prototype : list string :=
  ["constructor"; "__defineGetter__"; "__defineSetter__"; "hasOwnProperty";
   "__lookupGetter__"; "__lookupSetter__"; "isPrototypeOf";
   "propertyIsEnumerable"; "toString"; "valueOf"; "__proto__";
   "toLocaleString"].

Inductive Property (V : Type) :=
  | Own (v : V)
  | Inherited (member : string).
Arguments Own {V} v.
Arguments Inherited {V} member.

(** [object[name]]; [None] is [undefined]. *)
Definition get {V} (object : gmap string V) (name : string)
    : option (Property V) :=
  match object !! name with
  | Some v => Some (Own v)
  | None =>
      if decide (name ∈ Object_prototype) then Some (Inherited name) else None
  end.

(** [object[name] = v] for a string [v]. Under ['__proto__'] the assignment
    reaches the inherited setter, which ignores a value that is not an
    object; under every other name it defines or overwrites an own
    property. *)
Definition put (name v : string) (object : gmap string string)
    : gmap string string :=
  match object !! name with
  | Some _ => <[name := v]> object
  | None => if decide (name = "__proto__") then object else <[name := v]> object
  end.

(** ** GlueUtils.ts *)

Record HTMLImageElement :=
  { complete : bool; naturalWidth : N; naturalHeight : N }.

Record HTMLVideoElement :=
  { readyState : N; videoWidth : N; videoHeight : N }.

Record HTMLCanvasElement :=
  { canvas_width : N; canvas_height : N }.

(** [type GlueSourceType = HTMLImageElement | HTMLVideoElement |
    HTMLCanvasElement]; each constructor is one [instanceof] class. A
    possibly absent ([null] / [undefined]) source is an [option]. *)
Inductive GlueSourceType :=
  | Image (img : HTMLImageElement)
  | Video (vid : HTMLVideoElement)
  | Canvas (cnv : HTMLCanvasElement).

Definition glueIsSourceLoaded (source : option GlueSourceType) : bool :=
  match source with
  | None => false
  | Some (Image img) => complete img && (0 <? naturalHeight img)%N
  | Some (Video vid) => (2 <? readyState vid)%N
  | Some _ => true
  end.

(** The closing [throw new Error('Unable to get source dimensions.')] is
    reached by no value of [GlueSourceType]. *)
Definition glueGetSourceDimensions (source : GlueSourceType) : number * number :=
  match source with
  | Image img => (number_of_N (naturalWidth img), number_of_N (naturalHeight img))
  | Video vid => (number_of_N (videoWidth vid), number_of_N (videoHeight vid))
  | Canvas cnv => (number_of_N (canvas_width cnv), number_of_N (canvas_height cnv))
  end.

(** ** Collaborators of GlueTexture.ts *)

(** The constants of [WebGLRenderingContext] the class reads. *)
Module GL.
Definition TEXTURE_2D : number := 3553.
Definition UNSIGNED_BYTE : number := 5121.
Definition RGBA : number := 6408.
Definition TEXTURE0 : number := 33984.
Definition TEXTURE1 : number := 33985.
Definition UNPACK_FLIP_Y_WEBGL : number := 37440.
End GL.

(** An opaque [WebGLTexture] handle. *)
Definition WebGLTexture := N.

(** [Glue] is declared in [./Glue]; the class only calls
    [glue._createTexture(target)]. *)
Record Glue := { _createTexture : number → WebGLTexture }.

(** [GlueProgram] is declared in [./GlueProgram]. A program is represented
    by the arguments its constructor received: the two shader sources and the
    contents of the import table at the time of the call. *)
Record GlueProgram :=
  { fragmentShader : string;
    vertexShader : string;
    imports : gmap string string }.

(** [mask?: string | GlueSourceType] *)
Inductive GlueMask :=
  | MaskName (name : string)
  | MaskSource (source : GlueSourceType).

(** The uniform object [draw] hands to [GlueProgram.apply]. *)
Record Uniforms :=
  { iImage : number;
    iSize : number * number;
    iOffset : number * number;
    iOpacity : number }.

(** Commands issued on the WebGL context, on [glue] and on programs, in the
    order the class issues them. [Member_apply] stands for [.apply(...)]
    called on a member inherited from [Object.prototype]; the class looks up
    only ['~default'] and ['~blend_...'] before it calls [.apply], so it is
    never issued ([get_blend], [get_default]). *)
Inductive Call :=
  | Glue_createTexture (target : number)
  | gl_activeTexture (unit : number)
  | gl_bindTexture (target : number) (texture : WebGLTexture)
  | gl_pixelStorei (pname : number) (param : bool)
  | gl_texImage2D (target level internalformat format type : number)
      (source : GlueSourceType)
  | gl_deleteTexture (texture : WebGLTexture)
  | GlueProgram_new (program : GlueProgram)
  | GlueProgram_apply (program : GlueProgram) (uniforms : option Uniforms)
      (mask : option GlueMask)
  | GlueProgram_dispose (program : GlueProgram)
  | Member_apply (member : string).

(** ** GlueTexture.ts *)

Record GlueTextureDrawOptions :=
  { x : option number;
    y : option number;
    width : option number;
    height : option number;
    opacity : option number;
    mode : option string;
    mask : option GlueMask }.

(** [draw()] with no argument: [= {}]. *)
Definition no_options : GlueTextureDrawOptions :=
  {| x := None; y := None; width := None; height := None; opacity := None;
     mode := None; mask := None |}.

Record GlueTexture :=
  { glue : Glue;
    _source : GlueSourceType;
    _width : number;
    _height : number;
    _disposed : bool;
    _texture : WebGLTexture;
    _programs : gmap string GlueProgram;
    _imports : gmap string string }.

Definition set_source (s : GlueSourceType) (t : GlueTexture) : GlueTexture :=
  {| glue := glue t; _source := s; _width := _width t; _height := _height t;
     _disposed := _disposed t; _texture := _texture t;
     _programs := _programs t; _imports := _imports t |}.

Definition set_width (v : number) (t : GlueTexture) : GlueTexture :=
  {| glue := glue t; _source := _source t; _width := v; _height := _height t;
     _disposed := _disposed t; _texture := _texture t;
     _programs := _programs t; _imports := _imports t |}.

Definition set_height (v : number) (t : GlueTexture) : GlueTexture :=
  {| glue := glue t; _source := _source t; _width := _width t; _height := v;
     _disposed := _disposed t; _texture := _texture t;
     _programs := _programs t; _imports := _imports t |}.

Definition set_programs (f : gmap string GlueProgram → gmap string GlueProgram)
    (t : GlueTexture) : GlueTexture :=
  {| glue := glue t; _source := _source t; _width := _width t;
     _height := _height t; _disposed := _disposed t; _texture := _texture t;
     _programs := f (_programs t); _imports := _imports t |}.

Definition set_imports (f : gmap string string → gmap string string)
    (t : GlueTexture) : GlueTexture :=
  {| glue := glue t; _source := _source t; _width := _width t;
     _height := _height t; _disposed := _disposed t; _texture := _texture t;
     _programs := _programs t; _imports := f (_imports t) |}.

(** The world a method runs in: the object and the commands issued so far. *)
Record World := { self : GlueTexture; calls : list Call }.

Inductive Completion (A : Type) :=
  | Normal (a : A)
  | Throw (e : Error).
Arguments Normal {A} a.
Arguments Throw {A} e.

Definition Method (A : Type) : Type := World → Completion A * World.

#[global] Instance Method_ret : MRet Method := λ A a w, (Normal a, w).

#[global] Instance Method_bind : MBind Method := λ A B f m w,
  match m w with
  | (Normal a, w') => f a w'
  | (Throw e, w') => (Throw e, w')
  end.

Definition throw {A} (e : Error) : Method A := λ w, (Throw e, w).

Definition this : Method GlueTexture := λ w, (Normal (self w), w).

Definition assign (f : GlueTexture → GlueTexture) : Method unit :=
  λ w, (Normal (), {| self := f (self w); calls := calls w |}).

Definition call (c : Call) : Method unit :=
  λ w, (Normal (), {| self := self w; calls := calls w ++ [c] |}).

(** [for (const a of l) body(a)] *)
Fixpoint for_of {A} (l : list A) (body : A → Method unit) : Method unit :=
  match l with
  | [] => mret ()
  | a :: l' => body a;; for_of l' body
  end.

(** The messages of the five [throw] statements. *)
Definition SourceNotReady : Error := {| message := "Source is not loaded." |}.
Definition UnsupportedSourceType : Error :=
  {| message := "Unable to get source dimensions." |}.
Definition Disposed : Error :=
  {| message := "This GlueTexture object has been disposed." |}.
Definition InvalidBlendMode : Error := {| message := "Invalid blend mode." |}.
Definition DuplicateName (name : string) : Error :=
  {| message := "A program with this name already exists: " +:+ name |}.

(** The [TypeError] of calling [undefined]: [this._programs[name]?.dispose()]
    where the value found has no [dispose] member. The text is the
    engine's (here V8's). *)
Definition NotAFunction : Error :=
  {| message := "this._programs[name]?.dispose is not a function" |}.

(** *** GlueUtils.ts: rendering contexts *)

(** A value of a [WebGLContextAttributes] object: a boolean or a string
    such as [powerPreference]. The object itself is a finite map of its
    keys. *)
Inductive AttributeValue :=
  | boolean (b : bool)
  | text (s : string).

(** An opaque rendering-context object. *)
Definition RenderingContext := N.

Definition WebGLNotAvailable : Error :=
  {| message := "WebGL is not available." |}.

Section Contexts.
(** [canvas.getContext(contextId, options)] of the platform; [None] is
    [null]. Within one call of the function below it is asked again only
    after it answered [null]. *)
Variable getContext :
  HTMLCanvasElement → string → option (gmap string AttributeValue) →
  option RenderingContext.

(** [glueGetWebGLContext(canvas, options)]. The function writes into the
    caller's [options] object; the second component is that object after the
    call ([None] when the caller passed none). *)
Definition glueGetWebGLContext (canvas : HTMLCanvasElement)
    (options : option (gmap string AttributeValue))
    : Completion RenderingContext * option (gmap string AttributeValue) :=
  let options' :=
    match options with
    | Some o => <["premultipliedAlpha" := boolean false]> o
    | None => {["premultipliedAlpha" := boolean false]}
    end in
  let context :=
    match getContext canvas "webgl" (Some options') with
    | Some c => Some c
    | None => getContext canvas "experimental-webgl" (Some options')
    end in
  (match context with
   | None => Throw WebGLNotAvailable
   | Some c => Normal c
   end,
   match options with Some _ => Some options' | None => None end).

End Contexts.

(** What [./GlueShaderSources] exports: the values of the [GlueBlendMode]
    enumeration ([Object.values(GlueBlendMode)], in order), its [NORMAL]
    member, the table of blend fragment shaders and the two default
    shaders. The module is not part of these sources, so the class is
    embedded over any such module; the enumeration is taken to have string
    values, which is what ['~blend_' + mode] and [blendFragmentShaders[mode]]
    treat them as. *)
Record GlueShaderSources :=
  { GlueBlendMode : list string;
    GlueBlendMode_NORMAL : string;
    blendFragmentShaders : gmap string string;
    defaultFragmentShader : string;
    defaultVertexShader : string }.

Section GlueTexture.
Variable shaders : GlueShaderSources.

Definition checkDisposed : Method unit :=
  t ← this;
  if _disposed t then throw Disposed else mret ().

Definition registerProgram (name : string)
    (fragment vertex : option string) : Method GlueProgram :=
  checkDisposed;;
  t ← this;
  match get (_programs t) name with
  | Some _ => throw (DuplicateName name)
  | None =>
      let program :=
        {| fragmentShader := or_string fragment (defaultFragmentShader shaders);
           vertexShader := or_string vertex (defaultVertexShader shaders);
           imports := _imports t |} in
      call (GlueProgram_new program);;
      assign (set_programs (insert name program));;
      mret program
  end.

Definition deregisterProgram (name : string) : Method unit :=
  checkDisposed;;
  t ← this;
  match get (_programs t) name with
  | Some (Own p) => call (GlueProgram_dispose p)
  | Some (Inherited _) => throw NotAFunction
  | None => mret ()
  end;;
  assign (set_programs (delete name)).

Definition hasProgram (name : string) : Method bool :=
  t ← this;
  mret (bool_decide (is_Some (get (_programs t) name))).

Definition program (name : string)
    : Method (option (Property GlueProgram)) :=
  checkDisposed;;
  t ← this;
  mret (get (_programs t) name).

(** [value.apply(uniforms, mask)] on what [program] returned. *)
Definition apply_member (value : Property GlueProgram)
    (uniforms : option Uniforms) (mask : option GlueMask) : Method unit :=
  match value with
  | Own p => call (GlueProgram_apply p uniforms mask)
  | Inherited member => call (Member_apply member)
  end.

Definition use (target : option number) : Method unit :=
  checkDisposed;;
  call (gl_activeTexture (or_number target GL.TEXTURE1));;
  t ← this;
  call (gl_bindTexture GL.TEXTURE_2D (_texture t)).

Definition registerImport (name source : string) : Method unit :=
  checkDisposed;;
  assign (set_imports (put name source)).

Definition deregisterImport (name : string) : Method unit :=
  checkDisposed;;
  assign (set_imports (delete name)).

Definition dispose : Method unit :=
  t ← this;
  call (gl_deleteTexture (_texture t)).

Definition update (source : option GlueSourceType) : Method unit :=
  checkDisposed;;
  match source with
  | Some s =>
      if negb (glueIsSourceLoaded (Some s)) then throw SourceNotReady
      else
        let '(w, h) := glueGetSourceDimensions s in
        assign (set_width w);;
        assign (set_height h);;
        assign (set_source s)
  | None => mret ()
  end;;
  call (gl_activeTexture GL.TEXTURE1);;
  t ← this;
  call (gl_bindTexture GL.TEXTURE_2D (_texture t));;
  call (gl_pixelStorei GL.UNPACK_FLIP_Y_WEBGL true);;
  t ← this;
  call (gl_texImage2D GL.TEXTURE_2D 0 GL.RGBA GL.RGBA GL.UNSIGNED_BYTE
          (_source t)).

(** The size [draw] passes as [iSize]: [[this._width, this._height]]
    unless [width && height]. *)
Definition draw_size (o : GlueTextureDrawOptions) (t : GlueTexture)
    : number * number :=
  match width o, height o with
  | Some w, Some h =>
      if truthy w && truthy h then (w, h) else (_width t, _height t)
  | _, _ => (_width t, _height t)
  end.

Definition draw (o : GlueTextureDrawOptions) : Method unit :=
  let x := default 0%float (x o) in
  let y := default 0%float (y o) in
  let opacity := default 1%float (opacity o) in
  let mode := default (GlueBlendMode_NORMAL shaders) (mode o) in
  use None;;
  t ← this;
  let size := draw_size o t in
  blendProgram ← program ("~blend_" +:+ mode);
  match blendProgram with
  | None => throw InvalidBlendMode
  | Some p =>
      t ← this;
      apply_member p
        (Some {| iImage := 1;
                 iSize := size;
                 iOffset := (x / _width t, y / _height t)%float;
                 iOpacity := opacity |})
        (mask o)
  end.

(** [new GlueTexture(gl, glue, _source)], on a context that has already
    received the commands [gl]. The fields [_texture], [_width] and
    [_height] are assigned on lines 92-95, after the registrations; the
    registrations do not read them and [glueGetSourceDimensions] has no
    effect, so the object is built with them in place. *)
Definition GlueTexture_new (gl : list Call) (glue : Glue)
    (_source : option GlueSourceType) : Completion GlueTexture * list Call :=
  match _source with
  | Some source =>
      if negb (glueIsSourceLoaded (Some source)) then (Throw SourceNotReady, gl)
      else
        let target := GL.TEXTURE1 in
        let texture := _createTexture glue target in
        let '(width, height) := glueGetSourceDimensions source in
        let object :=
          {| glue := glue; _source := source; _width := width;
             _height := height; _disposed := false; _texture := texture;
             _programs := ∅; _imports := ∅ |} in
        let body : Method unit :=
          call (Glue_createTexture target);;
          call (gl_pixelStorei GL.UNPACK_FLIP_Y_WEBGL true);;
          call (gl_texImage2D GL.TEXTURE_2D 0 GL.RGBA GL.RGBA
                  GL.UNSIGNED_BYTE source);;
          registerProgram "~default" None None;;
          for_of (GlueBlendMode shaders) (λ mode,
            registerProgram ("~blend_" +:+ mode)
              (blendFragmentShaders shaders !! mode) None;;
            mret ());;
          p ← program "~default";
          match p with
          | Some p => apply_member p None None
          | None => mret ()
          end in
        match body {| self := object; calls := gl |} with
        | (Normal _, w) => (Normal (self w), calls w)
        | (Throw e, w) => (Throw e, calls w)
        end
  | None =>
      (* [glueIsSourceLoaded] is false on an absent source *)
      (Throw SourceNotReady, gl)
  end.

(** A call of one of the public methods, and the world it leaves behind
    whether it returns or throws. *)
Inductive Invocation :=
  | call_draw (o : GlueTextureDrawOptions)
  | call_update (source : option GlueSourceType)
  | call_registerProgram (name : string) (fragment vertex : option string)
  | call_deregisterProgram (name : string)
  | call_hasProgram (name : string)
  | call_program (name : string)
  | call_use (target : option number)
  | call_registerImport (name source : string)
  | call_deregisterImport (name : string)
  | call_dispose.

Definition invoke (i : Invocation) : Method unit :=
  match i with
  | call_draw o => draw o
  | call_update source => update source
  | call_registerProgram name fragment vertex =>
      registerProgram name fragment vertex;; mret ()
  | call_deregisterProgram name => deregisterProgram name
  | call_hasProgram name => hasProgram name;; mret ()
  | call_program name => program name;; mret ()
  | call_use target => use target
  | call_registerImport name source => registerImport name source
  | call_deregisterImport name => deregisterImport name
  | call_dispose => dispose
  end.

(** The worlds a client can bring about: a texture that the constructor
    returned, after any sequence of public method calls. *)
Inductive Reachable : World → Prop :=
  | Reachable_new gl glue source t gl' :
      GlueTexture_new gl glue source = (Normal t, gl') →
      Reachable {| self := t; calls := gl' |}
  | Reachable_invoke i w :
      Reachable w → Reachable (invoke i w).2.

(** *** Descriptions used in the statements *)

(** The four commands that upload [source] into the texture. *)
Definition upload (t : GlueTexture) (source : GlueSourceType) : list Call :=
  [gl_activeTexture GL.TEXTURE1;
   gl_bindTexture GL.TEXTURE_2D (_texture t);
   gl_pixelStorei GL.UNPACK_FLIP_Y_WEBGL true;
   gl_texImage2D GL.TEXTURE_2D 0 GL.RGBA GL.RGBA GL.UNSIGNED_BYTE source].

(** [m] does not write the [_disposed] field. *)
Definition keeps_disposed {A} (m : Method A) : Prop :=
  ∀ w, _disposed (self (m w).2) = _disposed (self w).

(** [m] does not change what [field] reads off the object. *)
Definition keeps_field {F A} (field : GlueTexture → F) (m : Method A) : Prop :=
  ∀ w, field (self (m w).2) = field (self w).

(** No program is registered under the name of an inherited member. *)
Definition own_names (t : GlueTexture) : Prop :=
  ∀ k, k ∈ Object_prototype → _programs t !! k = None.

(** [m] keeps the property [P] of the object. *)
Definition preserves {A} (P : GlueTexture → Prop) (m : Method A) : Prop :=
  ∀ w, P (self w) → P (self (m w).2).

(** Everything of the object but its program registry. *)
Definition resource (t : GlueTexture) :=
  (glue t, _source t, _width t, _height t, _disposed t, _texture t, _imports t).

(** The program [registerProgram(name, fragment)] builds while the import
    table holds [table]. *)
Definition built (fragment : option string) (table : gmap string string)
    : GlueProgram :=
  {| fragmentShader := or_string fragment (defaultFragmentShader shaders);
     vertexShader := defaultVertexShader shaders;
     imports := table |}.

(** The registry after the loop over [modes] has run on registry [ps]. *)
Definition with_blend_programs (t : gmap string string) (modes : list string)
    (ps : gmap string GlueProgram) : gmap string GlueProgram :=
  foldl (λ ps m,
           <["~blend_" +:+ m := built (blendFragmentShaders shaders !! m) t]> ps)
        ps modes.

(** The texture the constructor returns, and the commands it issues. *)
Definition constructed (glue : Glue) (source : GlueSourceType) : GlueTexture :=
  {| glue := glue; _source := source;
     _width := (glueGetSourceDimensions source).1;
     _height := (glueGetSourceDimensions source).2;
     _disposed := false;
     _texture := _createTexture glue GL.TEXTURE1;
     _programs :=
       with_blend_programs ∅ (GlueBlendMode shaders)
         {[ "~default" := built None ∅ ]};
     _imports := ∅ |}.

Definition construction (source : GlueSourceType) : list Call :=
  [Glue_createTexture GL.TEXTURE1;
   gl_pixelStorei GL.UNPACK_FLIP_Y_WEBGL true;
   gl_texImage2D GL.TEXTURE_2D 0 GL.RGBA GL.RGBA GL.UNSIGNED_BYTE source;
   GlueProgram_new (built None ∅)]
  ++ ((λ m, GlueProgram_new (built (blendFragmentShaders shaders !! m) ∅))
        <$> GlueBlendMode shaders)
  ++ [GlueProgram_apply (built None ∅) None None].

(** On a texture whose flag is clear, [m] throws only errors in [P]. *)
Definition throws_only (P : Error → Prop) {A} (m : Method A) : Prop :=
  ∀ w, _disposed (self w) = false →
       match (m w).1 with Throw e => P e | Normal _ => True end.

Definition is_duplicate_name (e : Error) : Prop := ∃ n, e = DuplicateName n.

End GlueTexture.

(** ** A concrete setting

    A small shader module, a session and a loaded 200x100 image, used to run
    the class on concrete inputs. *)

Definition demo_shaders : GlueShaderSources :=
  {| GlueBlendMode := ["normal"; "multiply"; "screen"];
     GlueBlendMode_NORMAL := "normal";
     blendFragmentShaders :=
       {[ "normal" := "void main() { normal(); }";
          "multiply" := "void main() { multiply(); }";
          "screen" := "void main() { screen(); }" ]};
     defaultFragmentShader := "void main() { fragment(); }";
     defaultVertexShader := "void main() { vertex(); }" |}.

Definition demo_glue : Glue := {| _createTexture := λ _, 7%N |}.

Definition demo_image : GlueSourceType :=
  Image {| complete := true; naturalWidth := 200; naturalHeight := 100 |}.

Definition demo_program (fragment : string) : GlueProgram :=
  {| fragmentShader := fragment;
     vertexShader := "void main() { vertex(); }";
     imports := ∅ |}.

(** The texture [new GlueTexture(gl, glue, image)] returns on [demo_shaders]
    (see [demo_world_constructed]). *)
Definition demo_texture : GlueTexture :=
  {| glue := demo_glue; _source := demo_image; _width := 200; _height := 100;
     _disposed := false; _texture := 7%N;
     _programs :=
       {[ "~default" := demo_program "void main() { fragment(); }";
          "~blend_normal" := demo_program "void main() { normal(); }";
          "~blend_multiply" := demo_program "void main() { multiply(); }";
          "~blend_screen" := demo_program "void main() { screen(); }" ]};
     _imports := ∅ |}.

Definition demo_world : World :=
  {| self := demo_texture;
     calls :=
       [ Glue_createTexture GL.TEXTURE1;
         gl_pixelStorei GL.UNPACK_FLIP_Y_WEBGL true;
         gl_texImage2D GL.TEXTURE_2D 0 GL.RGBA GL.RGBA GL.UNSIGNED_BYTE
           demo_image;
         GlueProgram_new (demo_program "void main() { fragment(); }");
         GlueProgram_new (demo_program "void main() { normal(); }");
         GlueProgram_new (demo_program "void main() { multiply(); }");
         GlueProgram_new (demo_program "void main() { screen(); }");
         GlueProgram_apply (demo_program "void main() { fragment(); }")
           None None ] |}.

(** [draw({x: 10, y: 20, opacity: 0.5, mode: 'multiply'})] *)
Definition multiply_options : GlueTextureDrawOptions :=
  {| x := Some 10%float; y := Some 20%float; width := None; height := None;
     opacity := Some 0.5%float; mode := Some "multiply"; mask := None |}.

(** [draw({width: 0, height: 50})] *)
Definition zero_width_options : GlueTextureDrawOptions :=
  {| x := None; y := None; width := Some 0%float; height := Some 50%float;
     opacity := None; mode := None; mask := None |}.

(** [draw({width: -5, height: -3})] *)
Definition negative_size_options : GlueTextureDrawOptions :=
  {| x := None; y := None; width := Some (-5)%float;
     height := Some (-3)%float; opacity := None; mode := None; mask := None |}.

(** [draw({mode: 'nonexistent'})] *)
Definition nonexistent_options : GlueTextureDrawOptions :=
  {| x := None; y := None; width := None; height := None; opacity := None;
     mode := Some "nonexistent"; mask := None |}.

(** An image that has not finished loading. *)
Definition pending_image : GlueSourceType :=
  Image {| complete := false; naturalWidth := 0; naturalHeight := 0 |}.


(** A canvas whose width has been set to 0. *)
Definition empty_canvas : GlueSourceType :=
  Canvas {| canvas_width := 0; canvas_height := 150 |}.

(** A second loaded source: a 640x360 video with data for the current and
    later frames. *)
Definition demo_video : GlueSourceType :=
  Video {| readyState := 4; videoWidth := 640; videoHeight := 360 |}.

(** A shader module whose enumeration repeats a value. *)
Definition repeating_shaders : GlueShaderSources :=
  {| GlueBlendMode := ["normal"; "multiply"; "normal"];
     GlueBlendMode_NORMAL := "normal";
     blendFragmentShaders := ∅;
     defaultFragmentShader := "void main() { fragment(); }";
     defaultVertexShader := "void main() { vertex(); }" |}.

(** A browser that only knows the prefixed context name. *)
Definition legacy_getContext (canvas : HTMLCanvasElement) (contextId : string)
    (options : option (gmap string AttributeValue)) : option RenderingContext :=
  if decide (contextId = "experimental-webgl") then Some 1%N else None.

Definition demo_canvas : HTMLCanvasElement :=
  {| canvas_width := 300; canvas_height := 150 |}.

(** The texture [new GlueTexture(gl, glue, canvas)] returns for the canvas
    of width 0 (see [empty_canvas_world_constructed]). *)
Definition empty_canvas_world : World :=
  {| self := constructed demo_shaders demo_glue empty_canvas;
     calls := construction demo_shaders empty_canvas |}.

(** [gl.TEXTURE2] *)
Definition TEXTURE2 : number := 33986.

(** ** Running methods *)

Lemma demo_world_constructed :
  GlueTexture_new demo_shaders [] demo_glue (Some demo_image)
  = (Normal (self demo_world), calls demo_world).
Proof. vm_compute. reflexivity. Qed.

Lemma demo_world_reachable : Reachable demo_shaders demo_world.
Proof. exact (Reachable_new _ _ _ _ _ _ demo_world_constructed). Qed.

(** *** Reading and writing plain objects *)

Lemma get_own {V} (object : gmap string V) (name : string) (v : V) :
  object !! name = Some v → get object name = Some (Own v).
Proof. unfold get. by intros ->. Qed.

Lemma get_None {V} (object : gmap string V) (name : string) :
  get object name = None ↔ object !! name = None ∧ name ∉ Object_prototype.
Proof.
unfold get. destruct (object !! name); [by split; [|intros []]|].
destruct (decide (name ∈ Object_prototype)); split; try done.
- by intros [_ ?].
Qed.

Lemma get_inherited {V} (object : gmap string V) (name : string) :
  object !! name = None → name ∈ Object_prototype →
  get object name = Some (Inherited name).
Proof. unfold get. intros -> ?. by rewrite decide_True. Qed.

Lemma blend_name_own (m : string) : "~blend_" +:+ m ∉ Object_prototype.
Proof.
unfold Object_prototype. intros H.
repeat (apply elem_of_cons in H as [H|H]; [by cbv [String.append] in H|]).
by apply elem_of_nil in H.
Qed.

Lemma default_name_own : "~default" ∉ Object_prototype.
Proof.
unfold Object_prototype. intros H.
repeat (apply elem_of_cons in H as [H|H]; [done|]).
by apply elem_of_nil in H.
Qed.

Lemma get_blend {V} (object : gmap string V) (m : string) :
  get object ("~blend_" +:+ m) = Own <$> object !! ("~blend_" +:+ m).
Proof.
unfold get. destruct (object !! _); [done|].
rewrite decide_False; [done|apply blend_name_own].
Qed.

Lemma get_default {V} (object : gmap string V) :
  get object "~default" = Own <$> object !! "~default".
Proof.
unfold get. destruct (object !! _); [done|].
rewrite decide_False; [done|apply default_name_own].
Qed.



Section Properties.
Variable shaders : GlueShaderSources.

Ltac run_method :=
  unfold mbind, Method_bind, mret, Method_ret, throw, this, assign, call;
  simpl.

Lemma checkDisposed_eq (w : World) :
  checkDisposed w
  = if _disposed (self w) then (Throw Disposed, w) else (Normal (), w).
Proof. unfold checkDisposed. run_method. by destruct (_disposed (self w)). Qed.

Lemma program_eq (name : string) (w : World) :
  program name w
  = if _disposed (self w) then (Throw Disposed, w)
    else (Normal (get (_programs (self w)) name), w).
Proof.
  unfold program. run_method. rewrite checkDisposed_eq.
  by destruct (_disposed (self w)).
Qed.

Lemma use_eq (target : option number) (w : World) :
  use target w
  = if _disposed (self w) then (Throw Disposed, w)
    else (Normal (),
          {| self := self w;
             calls := calls w ++
               [gl_activeTexture (or_number target GL.TEXTURE1);
                gl_bindTexture GL.TEXTURE_2D (_texture (self w))] |}).
Proof.
  unfold use. run_method. rewrite checkDisposed_eq.
  destruct (_disposed (self w)); [done|]. by rewrite <- app_assoc.
Qed.

Lemma draw_eq (o : GlueTextureDrawOptions) (w : World) :
  draw shaders o w
  = if _disposed (self w) then (Throw Disposed, w)
    else
      let bound :=
        {| self := self w;
           calls := calls w ++
             [gl_activeTexture GL.TEXTURE1;
              gl_bindTexture GL.TEXTURE_2D (_texture (self w))] |} in
      match _programs (self w)
              !! ("~blend_" +:+ default (GlueBlendMode_NORMAL shaders) (mode o))
      with
      | None => (Throw InvalidBlendMode, bound)
      | Some p =>
          (Normal (),
           {| self := self w;
              calls := calls w ++
                [gl_activeTexture GL.TEXTURE1;
                 gl_bindTexture GL.TEXTURE_2D (_texture (self w));
                 GlueProgram_apply p
                   (Some {| iImage := 1;
                            iSize := draw_size o (self w);
                            iOffset :=
                              (default 0 (x o) / _width (self w),
                               default 0 (y o) / _height (self w))%float;
                            iOpacity := default 1%float (opacity o) |})
                   (mask o)] |})
      end.
Proof.
  unfold draw. run_method. rewrite use_eq.
  destruct (_disposed (self w)) eqn:Hd; [done|].
  rewrite program_eq. simpl. rewrite Hd, get_blend.
  destruct (_programs (self w) !! _); [|done].
  unfold apply_member, call. simpl. by rewrite <- app_assoc.
Qed.

Lemma registerProgram_eq (name : string) (fragment vertex : option string)
    (w : World) :
  registerProgram shaders name fragment vertex w
  = if _disposed (self w) then (Throw Disposed, w)
    else
      match get (_programs (self w)) name with
      | Some _ => (Throw (DuplicateName name), w)
      | None =>
          let p :=
            {| fragmentShader :=
                 or_string fragment (defaultFragmentShader shaders);
               vertexShader := or_string vertex (defaultVertexShader shaders);
               imports := _imports (self w) |} in
          (Normal p,
           {| self := set_programs (insert name p) (self w);
              calls := calls w ++ [GlueProgram_new p] |})
      end.
Proof.
  unfold registerProgram. run_method. rewrite checkDisposed_eq.
  destruct (_disposed (self w)); [done|].
  by destruct (get (_programs (self w)) name).
Qed.

Lemma registerProgram_own_eq (name : string)
    (fragment vertex : option string) (w : World) :
  name ∉ Object_prototype →
  registerProgram shaders name fragment vertex w
  = if _disposed (self w) then (Throw Disposed, w)
    else
      match _programs (self w) !! name with
      | Some _ => (Throw (DuplicateName name), w)
      | None =>
          let p :=
            {| fragmentShader :=
                 or_string fragment (defaultFragmentShader shaders);
               vertexShader := or_string vertex (defaultVertexShader shaders);
               imports := _imports (self w) |} in
          (Normal p,
           {| self := set_programs (insert name p) (self w);
              calls := calls w ++ [GlueProgram_new p] |})
      end.
Proof.
  intros Hname. rewrite registerProgram_eq. unfold get.
  destruct (_programs (self w) !! name); [done|]. by rewrite decide_False.
Qed.

Lemma registerImport_eq (name source : string) (w : World) :
  registerImport name source w
  = if _disposed (self w) then (Throw Disposed, w)
    else (Normal (),
          {| self := set_imports (put name source) (self w);
             calls := calls w |}).
Proof.
  unfold registerImport. run_method. rewrite checkDisposed_eq.
  by destruct (_disposed (self w)).
Qed.

Lemma update_eq (source : option GlueSourceType) (w : World) :
  update source w
  = if _disposed (self w) then (Throw Disposed, w)
    else
      match source with
      | Some s =>
          if glueIsSourceLoaded (Some s) then
            (Normal (),
             {| self :=
                  set_source s
                    (set_height (glueGetSourceDimensions s).2
                       (set_width (glueGetSourceDimensions s).1 (self w)));
                calls := calls w ++ upload (self w) s |})
          else (Throw SourceNotReady, w)
      | None =>
          (Normal (),
           {| self := self w;
              calls := calls w ++ upload (self w) (_source (self w)) |})
      end.
Proof.
  unfold update, upload.
  destruct source as [s|];
    [destruct (glueIsSourceLoaded (Some s)),
       (glueGetSourceDimensions s) as [wd ht]|];
    run_method; rewrite checkDisposed_eq;
    destruct (_disposed (self w)); try done;
    simpl; by rewrite <- !app_assoc.
Qed.

(** *** No method writes the [_disposed] field *)

Lemma keeps_ret {A} (a : A) : keeps_disposed (mret a).
Proof. by intros w. Qed.

Lemma keeps_throw {A} (e : Error) : keeps_disposed (@throw A e).
Proof. by intros w. Qed.

Lemma keeps_this : keeps_disposed this.
Proof. by intros w. Qed.

Lemma keeps_call (c : Call) : keeps_disposed (call c).
Proof. by intros w. Qed.

Lemma keeps_assign (f : GlueTexture → GlueTexture) :
  (∀ t, _disposed (f t) = _disposed t) → keeps_disposed (assign f).
Proof. intros Hf w. apply Hf. Qed.

Lemma keeps_bind {A B} (m : Method A) (f : A → Method B) :
  keeps_disposed m → (∀ a, keeps_disposed (f a)) → keeps_disposed (m ≫= f).
Proof.
  intros Hm Hf w. unfold mbind, Method_bind. specialize (Hm w).
  destruct (m w) as [[a|e] w']; simpl in *; [|done].
  by rewrite Hf.
Qed.

Lemma keeps_for_of {A} (l : list A) (body : A → Method unit) :
  (∀ a, keeps_disposed (body a)) → keeps_disposed (for_of l body).
Proof.
  intros Hbody. induction l as [|a l IH]; simpl.
  - apply keeps_ret.
  - apply keeps_bind; [apply Hbody | intros _; apply IH].
Qed.

Ltac keeps :=
  repeat first
    [ apply keeps_ret | apply keeps_throw | apply keeps_this
    | apply keeps_call | apply keeps_assign; by intros []
    | apply keeps_bind | apply keeps_for_of | progress unfold apply_member
    | lazymatch goal with
      | |- keeps_disposed _ => fail
      | |- ∀ _, _ => intros ?
      end
    | match goal with
      | |- keeps_disposed (match ?v with _ => _ end) => destruct v
      end ].

Lemma keeps_checkDisposed : keeps_disposed checkDisposed.
Proof. unfold checkDisposed. keeps. Qed.

Lemma keeps_registerProgram name fragment vertex :
  keeps_disposed (registerProgram shaders name fragment vertex).
Proof. unfold registerProgram. keeps. Qed.

Lemma keeps_program name : keeps_disposed (program name).
Proof. unfold program. keeps. Qed.

Lemma keeps_use target : keeps_disposed (use target).
Proof. unfold use. keeps. Qed.

Lemma keeps_invoke (i : Invocation) : keeps_disposed (invoke shaders i).
Proof.
  destruct i; simpl;
    unfold draw, update, deregisterProgram, hasProgram, registerImport,
      deregisterImport, dispose; keeps.
Qed.

Lemma GlueTexture_new_not_disposed gl glue source t gl' :
  GlueTexture_new shaders gl glue source = (Normal t, gl') →
  _disposed t = false.
Proof.
  unfold GlueTexture_new. destruct source as [s|]; [|done].
  destruct (negb _); [done|].
  destruct (glueGetSourceDimensions s) as [wd ht].
  match goal with
  | |- context [match ?body ?w0 with _ => _ end] =>
      assert (keeps_disposed body) as Hk;
        [|specialize (Hk w0); destruct (body w0) as [[?|?] w1]]
  end.
  - keeps.
  - simpl in Hk. by intros [= <- _].
  - done.
Qed.

(** [_disposed] is initialised to [false] and never assigned. *)
Lemma Reachable_not_disposed (w : World) :
  Reachable shaders w → _disposed (self w) = false.
Proof.
  induction 1 as [gl glue source t gl' Hnew|i w _ IH]; simpl.
  - by eapply GlueTexture_new_not_disposed.
  - by rewrite keeps_invoke.
Qed.

(** *** What the constructor registers *)

Lemma blend_name_inj (m1 m2 : string) :
  "~blend_" +:+ m1 = "~blend_" +:+ m2 → m1 = m2.
Proof. cbv [String.append]. by intros [= ->]. Qed.

Lemma blend_name_not_default (m : string) : "~blend_" +:+ m ≠ "~default".
Proof. cbv [String.append]. by intros [=]. Qed.

Lemma with_blend_programs_other t modes ps (k : string) :
  (∀ m, m ∈ modes → "~blend_" +:+ m ≠ k) →
  with_blend_programs shaders t modes ps !! k = ps !! k.
Proof.
  revert ps. induction modes as [|a modes IH]; intros ps Hk; [done|].
  simpl. rewrite IH.
  - apply lookup_insert_ne, Hk. left.
  - intros m Hm. apply Hk. by right.
Qed.

Lemma with_blend_programs_lookup t modes ps (m : string) :
  m ∈ modes →
  with_blend_programs shaders t modes ps !! ("~blend_" +:+ m)
  = Some (built shaders (blendFragmentShaders shaders !! m) t).
Proof.
  revert ps. induction modes as [|a modes IH]; intros ps Hm.
  - by apply elem_of_nil in Hm.
  - simpl. destruct (decide (m ∈ modes)) as [Hin|Hout]; [by apply IH|].
    apply elem_of_cons in Hm as [->|Hm]; [|done].
    rewrite with_blend_programs_other; [apply lookup_insert_eq|].
    intros m' Hm' Heq. apply blend_name_inj in Heq as ->. done.
Qed.

Lemma with_blend_programs_size t modes ps :
  NoDup modes →
  (∀ m, m ∈ modes → ps !! ("~blend_" +:+ m) = None) →
  size (with_blend_programs shaders t modes ps) = size ps + length modes.
Proof.
  intros Hnd. revert ps.
  induction Hnd as [|a modes Ha Hnd IH]; intros ps Hfresh; simpl; [lia|].
  rewrite IH.
  - rewrite map_size_insert_None; [lia|]. apply Hfresh. left.
  - intros m Hm. rewrite lookup_insert_ne; [apply Hfresh; by right|].
    intros Heq. apply blend_name_inj in Heq as ->. done.
Qed.

Lemma for_of_blend_modes (modes : list string) (w : World) :
  NoDup modes →
  _disposed (self w) = false →
  (∀ m, m ∈ modes → _programs (self w) !! ("~blend_" +:+ m) = None) →
  for_of modes (λ mode,
    registerProgram shaders ("~blend_" +:+ mode)
      (blendFragmentShaders shaders !! mode) None;;
    mret ()) w
  = (Normal (),
     {| self :=
          set_programs
            (with_blend_programs shaders (_imports (self w)) modes) (self w);
        calls := calls w ++
          ((λ m, GlueProgram_new
                   (built shaders (blendFragmentShaders shaders !! m)
                      (_imports (self w))))
             <$> modes) |}).
Proof.
  intros Hnd. revert w.
  induction Hnd as [|a modes Ha Hnd IH]; intros w Hd Hfresh.
  - simpl. unfold mret, Method_ret. rewrite app_nil_r. by destruct w as [[]].
  - cbn [for_of]. unfold mbind at 1. unfold Method_bind at 1.
    unfold mbind at 1. unfold Method_bind at 1.
    rewrite registerProgram_own_eq by apply blend_name_own.
    rewrite Hd, (Hfresh a) by left.
    cbn [mret Method_ret]. rewrite IH; [|done|].
    + simpl. by rewrite <- app_assoc.
    + intros m Hm. simpl. rewrite lookup_insert_ne; [apply Hfresh; by right|].
      intros Heq. apply blend_name_inj in Heq as ->. done.
Qed.

Lemma GlueTexture_new_eq gl glue (source : GlueSourceType) :
  NoDup (GlueBlendMode shaders) →
  glueIsSourceLoaded (Some source) = true →
  GlueTexture_new shaders gl glue (Some source)
  = (Normal (constructed shaders glue source),
     gl ++ construction shaders source).
Proof.
  intros Hnd Hloaded. unfold GlueTexture_new, constructed, construction.
  rewrite Hloaded. cbn [negb].
  destruct (glueGetSourceDimensions source) as [wd ht].
  unfold mbind at 1 2 3 4. unfold Method_bind at 1 2 3 4.
  unfold call at 1 2 3. cbn [self calls].
  rewrite registerProgram_own_eq by apply default_name_own.
  cbn [self calls _disposed _programs].
  rewrite lookup_empty. cbn [self calls _disposed _programs].
  unfold mbind at 1. unfold Method_bind at 1.
  rewrite for_of_blend_modes; [|done|done|].
  - unfold mbind at 1. unfold Method_bind at 1.
    rewrite program_eq, get_default. unfold apply_member. cbn.
    rewrite with_blend_programs_other.
    + rewrite insert_empty, lookup_singleton_eq. cbn.
      f_equal. by rewrite <- !app_assoc.
    + intros m _. apply blend_name_not_default.
  - intros m _. cbn. rewrite lookup_insert_ne, lookup_empty; [done|].
    intros Heq. by apply (blend_name_not_default m).
Qed.

(** *** Truthiness of numbers *)

Lemma truthy_negative (v : number) : (v <? 0)%float = true → truthy v = true.
Proof.
intros Hlt. unfold truthy, PrimFloat.is_zero, PrimFloat.is_nan.
rewrite FloatAxioms.ltb_spec in Hlt. rewrite !FloatAxioms.eqb_spec.
change (FloatOps.Prim2SF zero) with (SpecFloat.S754_zero false).
change (FloatOps.Prim2SF 0) with (SpecFloat.S754_zero false) in Hlt.
unfold SpecFloat.SFltb, SpecFloat.SFeqb in *.
destruct (FloatOps.Prim2SF v) as [s|s| |s m e]; simpl in *; try done.
- by destruct s.
- rewrite Z.compare_refl.
  change (PosDef.Pos.compare_cont Eq m m) with (Pos.compare m m).
  rewrite Pos.compare_refl. by destruct s.
Qed.

Lemma truthy_true (v : number) :
  PrimFloat.is_zero v = false → PrimFloat.is_nan v = false → truthy v = true.
Proof. unfold truthy. by intros -> ->. Qed.

Lemma truthy_false (v : number) :
  PrimFloat.is_zero v = true ∨ PrimFloat.is_nan v = true → truthy v = false.
Proof. unfold truthy. intros [-> | ->]; [done|]. by rewrite orb_true_r. Qed.

(** *** Disposal *)

Lemma dispose_eq (w : World) :
  dispose w
  = (Normal (),
     {| self := self w;
        calls := calls w ++ [gl_deleteTexture (_texture (self w))] |}).
Proof. done. Qed.

(** C1 (the code departs from it): [dispose()] only deletes the WebGL
    texture; it never sets [_disposed]. On every texture a client can hold,
    after [dispose()] the guard of [update], [use], [program] and
    [registerProgram] still passes: the first three return normally and
    [registerProgram] does not fail with [Disposed]. *)
Theorem dispose_leaves_guards_open (w : World) :
  Reachable shaders w →
  _disposed (self (dispose w).2) = false
  ∧ (update None (dispose w).2).1 = Normal ()
  ∧ (use None (dispose w).2).1 = Normal ()
  ∧ (∀ name,
       (program name (dispose w).2).1
       = Normal (get (_programs (self w)) name))
  ∧ (∀ name fragment vertex,
       (registerProgram shaders name fragment vertex (dispose w).2).1
       ≠ Throw Disposed).
Proof.
intros Hw.
assert (_disposed (self (dispose w).2) = false) as Hd.
{ apply Reachable_not_disposed. apply (Reachable_invoke _ call_dispose _ Hw). }
split; [done|].
rewrite dispose_eq in *. cbn [snd] in *.
repeat split.
- by rewrite update_eq, Hd.
- by rewrite use_eq, Hd.
- intros name. by rewrite program_eq, Hd.
- intros name fragment vertex. rewrite registerProgram_eq, Hd. cbn [self].
  by destruct (get (_programs (self w)) name).
Qed.

(** *** draw *)

(** C2 (amended): when [draw(options)] dispatches its blend program, the
    size uniform is the explicit [(width, height)] pair whenever both are
    given and neither is zero or NaN - negative values included, which pass
    through uninterpreted - and it is the texture's stored native dimensions
    otherwise: when either is absent, zero or NaN. *)
Theorem draw_size_uniform (w : World) (o : GlueTextureDrawOptions)
    (p : GlueProgram) :
  _disposed (self w) = false →
  _programs (self w)
    !! ("~blend_" +:+ default (GlueBlendMode_NORMAL shaders) (mode o)) = Some p →
  ∃ u : Uniforms,
    draw shaders o w
    = (Normal (),
       {| self := self w;
          calls := calls w ++
            [gl_activeTexture GL.TEXTURE1;
             gl_bindTexture GL.TEXTURE_2D (_texture (self w));
             GlueProgram_apply p (Some u) (mask o)] |})
    ∧ (∀ wd ht, width o = Some wd → height o = Some ht →
         PrimFloat.is_zero wd = false → PrimFloat.is_nan wd = false →
         PrimFloat.is_zero ht = false → PrimFloat.is_nan ht = false →
         iSize u = (wd, ht))
    ∧ (∀ wd ht, width o = Some wd → height o = Some ht →
         (wd <? 0)%float = true → (ht <? 0)%float = true →
         iSize u = (wd, ht))
    ∧ (width o = None ∨ height o = None →
         iSize u = (_width (self w), _height (self w)))
    ∧ (∀ v, width o = Some v ∨ height o = Some v →
         PrimFloat.is_zero v = true ∨ PrimFloat.is_nan v = true →
         iSize u = (_width (self w), _height (self w))).
Proof.
intros Hd Hp. rewrite draw_eq, Hd, Hp. eexists. split; [reflexivity|].
cbn [iSize]. unfold draw_size. repeat split.
- intros wd ht -> -> Hz1 Hn1 Hz2 Hn2.
  by rewrite !truthy_true.
- intros wd ht -> -> H1 H2. by rewrite !truthy_negative.
- intros [-> | ->]; [done|]. by destruct (width o).
- intros v Hv Hfalsy. apply truthy_false in Hfalsy.
  destruct Hv as [-> | ->].
  + rewrite Hfalsy. by destruct (height o).
  + destruct (width o); [|done]. by rewrite Hfalsy, andb_false_r.
Qed.

(** C3: on a texture that is not disposed, with stored dimensions
    [(_width, _height)], [draw(options)] binds the texture to unit
    [TEXTURE1 = TEXTURE0 + 1] and applies the program registered for the
    blend mode with [iImage = 1], [iOffset = (x / _width, y / _height)]
    (whatever size is requested), [iOpacity] the given opacity unclamped, and
    the mask as given; [x], [y] default to 0 and the opacity to 1. On a
    200x100 texture, [draw({x: 10, y: 20, opacity: 0.5, mode})] applies the
    program of [mode] with offset (0.05, 0.2), size (200, 100) and opacity
    0.5. *)
#[warnings="-inexact-float"] Theorem draw_uniforms :
  (∀ (w : World) (o : GlueTextureDrawOptions) (p : GlueProgram),
     _disposed (self w) = false →
     _programs (self w)
       !! ("~blend_" +:+ default (GlueBlendMode_NORMAL shaders) (mode o))
     = Some p →
     ∃ size : number * number,
       draw shaders o w
       = (Normal (),
          {| self := self w;
             calls := calls w ++
               [gl_activeTexture GL.TEXTURE1;
                gl_bindTexture GL.TEXTURE_2D (_texture (self w));
                GlueProgram_apply p
                  (Some {| iImage := 1;
                           iSize := size;
                           iOffset :=
                             (default 0 (x o) / _width (self w),
                              default 0 (y o) / _height (self w))%float;
                           iOpacity := default 1%float (opacity o) |})
                  (mask o)] |}))
  ∧ GL.TEXTURE1 = (GL.TEXTURE0 + 1)%float
  ∧ (∀ (w : World) (m : string) (p : GlueProgram),
       _disposed (self w) = false →
       _width (self w) = 200%float → _height (self w) = 100%float →
       _programs (self w) !! ("~blend_" +:+ m) = Some p →
       draw shaders
         {| x := Some 10%float; y := Some 20%float; width := None;
            height := None; opacity := Some 0.5%float; mode := Some m;
            mask := None |} w
       = (Normal (),
          {| self := self w;
             calls := calls w ++
               [gl_activeTexture GL.TEXTURE1;
                gl_bindTexture GL.TEXTURE_2D (_texture (self w));
                GlueProgram_apply p
                  (Some {| iImage := 1;
                           iSize := (200, 100)%float;
                           iOffset := (0.05, 0.2)%float;
                           iOpacity := 0.5 |})
                  None] |})).
Proof.
split; [|split].
- intros w o p Hd Hp. exists (draw_size o (self w)).
  by rewrite draw_eq, Hd, Hp.
- reflexivity.
- intros w m p Hd Hw Hh Hp. rewrite draw_eq, Hd. simpl.
  rewrite Hp. unfold draw_size. simpl. rewrite Hw, Hh.
  reflexivity.
Qed.

(** *** The constructor *)

Lemma with_blend_programs_dom table modes ps (k : string) :
  is_Some (with_blend_programs shaders table modes ps !! k) →
  is_Some (ps !! k) ∨ ∃ m, m ∈ modes ∧ k = "~blend_" +:+ m.
Proof.
revert ps. induction modes as [|a modes IH]; intros ps Hk; [by left|].
simpl in Hk. apply IH in Hk as [Hk | (m & Hm & ->)].
- destruct (decide ("~blend_" +:+ a = k)) as [<-|Hne].
  + right. exists a. split; [left|done].
  + left. by rewrite lookup_insert_ne in Hk.
- right. exists m. split; [by right|done].
Qed.

(** C4: when the values of the blend-mode enumeration are pairwise
    distinct, constructing a texture from a loaded source succeeds and leaves
    exactly [length GlueBlendMode + 1] programs in the registry: the default
    program under ["~default"] and, for every enumeration value [m], the
    program built from [blendFragmentShaders[m]] under ["~blend_" + m]; so
    [hasProgram("~blend_" + m)] returns [true] on the new texture. *)
Theorem constructor_registers_programs (gl : list Call) (glue : Glue)
    (source : GlueSourceType) :
  NoDup (GlueBlendMode shaders) →
  glueIsSourceLoaded (Some source) = true →
  ∃ (t : GlueTexture) (gl' : list Call),
    GlueTexture_new shaders gl glue (Some source) = (Normal t, gl')
    ∧ size (_programs t) = S (length (GlueBlendMode shaders))
    ∧ _programs t !! "~default" = Some (built shaders None ∅)
    ∧ (∀ m, m ∈ GlueBlendMode shaders →
         _programs t !! ("~blend_" +:+ m)
         = Some (built shaders (blendFragmentShaders shaders !! m) ∅)
         ∧ hasProgram ("~blend_" +:+ m) {| self := t; calls := gl' |}
           = (Normal true, {| self := t; calls := gl' |}))
    ∧ (∀ k, is_Some (_programs t !! k) →
         k = "~default" ∨ ∃ m, m ∈ GlueBlendMode shaders ∧ k = "~blend_" +:+ m).
Proof.
intros Hnd Hloaded. eexists _, _. split; [by apply GlueTexture_new_eq|].
cbn [constructed _programs].
assert (∀ m, m ∈ GlueBlendMode shaders →
  ({[ "~default" := built shaders None ∅ ]} : gmap string GlueProgram)
    !! ("~blend_" +:+ m) = None) as Hfresh.
{ intros m _. apply lookup_singleton_ne. intros Heq.
  by apply (blend_name_not_default m). }
repeat split.
- rewrite with_blend_programs_size, map_size_singleton by done. lia.
- rewrite with_blend_programs_other; [apply lookup_singleton_eq|].
  intros m _. apply blend_name_not_default.
- by apply with_blend_programs_lookup.
- unfold hasProgram, mbind, Method_bind, this, mret, Method_ret.
  cbn [self _programs constructed].
  rewrite get_blend, with_blend_programs_lookup by done. reflexivity.
- intros k Hk. apply with_blend_programs_dom in Hk as [Hk|Hk]; [left|by right].
  destruct (decide ("~default" = k)) as [<-|Hne]; [done|].
  rewrite lookup_singleton_ne in Hk by done. by destruct Hk.
Qed.

(** *** update *)

(** C5: on a texture that is not disposed, [update(newSource)] with a source
    that is not loaded throws ['Source is not loaded.'] and leaves the whole
    object as it was - in particular [_width], [_height] and [_source] - and
    issues no command. *)
Theorem update_not_ready_unchanged (w : World) (newSource : GlueSourceType) :
  _disposed (self w) = false →
  glueIsSourceLoaded (Some newSource) = false →
  update (Some newSource) w = (Throw SourceNotReady, w)
  ∧ _width (self (update (Some newSource) w).2) = _width (self w)
  ∧ _height (self (update (Some newSource) w).2) = _height (self w)
  ∧ _source (self (update (Some newSource) w).2) = _source (self w).
Proof.
intros Hd Hloaded.
assert (update (Some newSource) w = (Throw SourceNotReady, w)) as Heq.
{ by rewrite update_eq, Hd, Hloaded. }
by rewrite Heq.
Qed.

(** *** The program registry *)

(** C6: on a texture that is not disposed, [registerProgram(name, ...)] for
    a name that is already registered throws the duplicate-name error and
    changes nothing: [program(name)] still returns the program registered
    first. In particular this holds for a second registration that follows a
    first one, which succeeds whenever [this._programs[name]] was undefined.
    (The name of a member of [Object.prototype] is refused from the start:
    the lookup finds the inherited member.) *)
Theorem registerProgram_duplicate :
  (∀ (w : World) (name : string) (p : GlueProgram) fragment vertex,
     _disposed (self w) = false →
     _programs (self w) !! name = Some p →
     registerProgram shaders name fragment vertex w
     = (Throw (DuplicateName name), w)
     ∧ program name (registerProgram shaders name fragment vertex w).2
       = (Normal (Some (Own p)), w))
  ∧ (∀ (w : World) (name : string) fragment1 vertex1 fragment2 vertex2,
       _disposed (self w) = false →
       get (_programs (self w)) name = None →
       ∃ (p : GlueProgram) (w1 : World),
         registerProgram shaders name fragment1 vertex1 w = (Normal p, w1)
         ∧ registerProgram shaders name fragment2 vertex2 w1
           = (Throw (DuplicateName name), w1)
         ∧ program name w1 = (Normal (Some (Own p)), w1))
  ∧ (∀ (w : World) (name : string) fragment vertex,
       _disposed (self w) = false →
       name ∈ Object_prototype →
       registerProgram shaders name fragment vertex w
       = (Throw (DuplicateName name), w)).
Proof.
assert (∀ (w : World) (name : string) (p : GlueProgram) fragment vertex,
  _disposed (self w) = false →
  _programs (self w) !! name = Some p →
  registerProgram shaders name fragment vertex w
  = (Throw (DuplicateName name), w)
  ∧ program name (registerProgram shaders name fragment vertex w).2
    = (Normal (Some (Own p)), w)) as Hdup.
{ intros w name p fragment vertex Hd Hp.
  assert (registerProgram shaders name fragment vertex w
          = (Throw (DuplicateName name), w)) as ->.
  { by rewrite registerProgram_eq, Hd, (get_own _ _ _ Hp). }
  split; [done|]. cbn [snd]. by rewrite program_eq, Hd, (get_own _ _ _ Hp). }
split; [exact Hdup|]. split.
- intros w name fragment1 vertex1 fragment2 vertex2 Hd Hfresh.
  eexists _, _. split.
  { rewrite registerProgram_eq, Hd, Hfresh. reflexivity. }
  match goal with |- registerProgram _ _ _ _ ?w1 = _ ∧ _ =>
    destruct (Hdup w1 name
                {| fragmentShader :=
                     or_string fragment1 (defaultFragmentShader shaders);
                   vertexShader :=
                     or_string vertex1 (defaultVertexShader shaders);
                   imports := _imports (self w) |}
                fragment2 vertex2) as [H1 H2]
  end.
  + done.
  + cbn. apply lookup_insert_eq.
  + split; [exact H1|]. rewrite H1 in H2. exact H2.
- intros w name fragment vertex Hd Hname.
  rewrite registerProgram_eq, Hd. unfold get.
  destruct (_programs (self w) !! name); [done|]. by rewrite decide_True.
Qed.

(** C7: on every texture a client can hold, a [draw] whose blend mode has no
    program registered under ["~blend_" + mode] throws ['Invalid blend
    mode.']; by then the texture has been bound, and no program has been
    applied. *)
Theorem draw_invalid_blend_mode (w : World) (o : GlueTextureDrawOptions) :
  Reachable shaders w →
  _programs (self w)
    !! ("~blend_" +:+ default (GlueBlendMode_NORMAL shaders) (mode o)) = None →
  ∃ issued : list Call,
    draw shaders o w
    = (Throw InvalidBlendMode,
       {| self := self w; calls := calls w ++ issued |})
    ∧ issued = [gl_activeTexture GL.TEXTURE1;
                gl_bindTexture GL.TEXTURE_2D (_texture (self w))]
    ∧ Forall (λ c, ∀ p u m, c ≠ GlueProgram_apply p u m) issued.
Proof.
intros Hw Hp. apply Reachable_not_disposed in Hw.
eexists. split; [|split; [reflexivity|]].
- by rewrite draw_eq, Hw, Hp.
- by repeat constructor.
Qed.



(** *** Which errors a method can throw *)

Lemma only_ret P {A} (a : A) : throws_only P (mret a).
Proof. by intros w _. Qed.

Lemma only_call P (c : Call) : throws_only P (call c).
Proof. by intros w _. Qed.

Lemma only_bind P {A B} (m : Method A) (f : A → Method B) :
  throws_only P m → keeps_disposed m → (∀ a, throws_only P (f a)) →
  throws_only P (m ≫= f).
Proof.
intros Hm Hk Hf w Hd. unfold mbind, Method_bind.
specialize (Hm w Hd). specialize (Hk w).
destruct (m w) as [[a|e] w']; simpl in *; [|done].
apply Hf. by rewrite Hk.
Qed.

Lemma only_for_of P {A} (l : list A) (body : A → Method unit) :
  (∀ a, throws_only P (body a)) → (∀ a, keeps_disposed (body a)) →
  throws_only P (for_of l body).
Proof.
intros Hbody Hk. induction l as [|a l IH]; simpl.
- apply only_ret.
- apply only_bind; [apply Hbody | apply Hk | intros _; apply IH].
Qed.

Lemma only_registerProgram name fragment vertex :
  throws_only is_duplicate_name (registerProgram shaders name fragment vertex).
Proof.
intros w Hd. rewrite registerProgram_eq, Hd.
destruct (get (_programs (self w)) name); [by exists name|done].
Qed.

Lemma only_program P name : throws_only P (program name).
Proof. intros w Hd. by rewrite program_eq, Hd. Qed.

Lemma SourceNotReady_not_duplicate : ¬ is_duplicate_name SourceNotReady.
Proof. intros [n Hn]. by cbv [String.append] in Hn. Qed.

Lemma GlueTexture_new_throws gl glue source (e : Error) :
  (GlueTexture_new shaders gl glue source).1 = Throw e →
  (e = SourceNotReady ∧ glueIsSourceLoaded source = false)
  ∨ (is_duplicate_name e ∧ glueIsSourceLoaded source = true).
Proof.
unfold GlueTexture_new. destruct source as [s|]; [|intros [= <-]; by left].
destruct (glueIsSourceLoaded (Some s)); cbn [negb];
  [|intros [= <-]; by left].
destruct (glueGetSourceDimensions s) as [wd ht].
match goal with
| |- context [match ?body ?w0 with _ => _ end] =>
    assert (throws_only is_duplicate_name body) as Hb;
      [|specialize (Hb w0 eq_refl); destruct (body w0) as [[?|e'] w1]]
end.
- repeat first
    [ apply only_call | apply only_ret | apply only_program
    | apply only_registerProgram | apply keeps_registerProgram
    | apply keeps_call | apply keeps_ret | apply keeps_program
    | apply only_bind | apply only_for_of | apply keeps_bind
    | apply keeps_for_of | progress unfold apply_member
    | lazymatch goal with
      | |- keeps_disposed _ => fail
      | |- throws_only _ _ => fail
      | |- ∀ _, _ => intros ?
      end
    | match goal with
      | |- throws_only _ (match ?v with _ => _ end) => destruct v
      end ].
- done.
- simpl in *. intros [= <-]. by right.
Qed.

(** *** Source readiness *)

Lemma not_loaded_inv (source : option GlueSourceType) :
  glueIsSourceLoaded source = false ↔
  source = None
  ∨ (∃ img, source = Some (Image img)
            ∧ (complete img = false ∨ naturalHeight img = 0%N))
  ∨ (∃ vid, source = Some (Video vid) ∧ (readyState vid ≤ 2)%N).
Proof.
split.
- destruct source as [[img|vid|cnv]|]; simpl; intros Hl.
  + right. left. exists img. split; [done|].
    apply andb_false_iff in Hl as [Hl|Hl]; [by left|right].
    apply N.ltb_ge in Hl. lia.
  + right. right. exists vid. split; [done|]. by apply N.ltb_ge.
  + done.
  + by left.
- intros [->|[(img & -> & Himg)|(vid & -> & Hvid)]]; simpl.
  + done.
  + apply andb_false_iff. destruct Himg as [Hc|Hh]; [by left|right].
    apply N.ltb_ge. lia.
  + by apply N.ltb_ge.
Qed.

(** C10: [glueIsSourceLoaded] is [false] on an absent source and [true] on
    every canvas, and on every source that is neither an image nor a video.
    Hence construction throws ['Source is not loaded.'] exactly when the
    source is absent, an image that is not complete or has natural height 0,
    or a video with [readyState <= 2]; [update(newSource)] throws it only for
    such an image or video; and neither ever throws it for a canvas. *)
Theorem source_readiness :
  glueIsSourceLoaded None = false
  ∧ (∀ cnv, glueIsSourceLoaded (Some (Canvas cnv)) = true)
  ∧ (∀ s, (∀ img, s ≠ Image img) → (∀ vid, s ≠ Video vid) →
          glueIsSourceLoaded (Some s) = true)
  ∧ (∀ gl glue source,
       (GlueTexture_new shaders gl glue source).1 = Throw SourceNotReady ↔
       source = None
       ∨ (∃ img, source = Some (Image img)
                 ∧ (complete img = false ∨ naturalHeight img = 0%N))
       ∨ (∃ vid, source = Some (Video vid) ∧ (readyState vid ≤ 2)%N))
  ∧ (∀ w source,
       (update source w).1 = Throw SourceNotReady →
       (∃ img, source = Some (Image img)
               ∧ (complete img = false ∨ naturalHeight img = 0%N))
       ∨ (∃ vid, source = Some (Video vid) ∧ (readyState vid ≤ 2)%N))
  ∧ (∀ gl glue w cnv,
       (GlueTexture_new shaders gl glue (Some (Canvas cnv))).1
       ≠ Throw SourceNotReady
       ∧ (update (Some (Canvas cnv)) w).1 ≠ Throw SourceNotReady).
Proof.
assert (∀ gl glue source,
  (GlueTexture_new shaders gl glue source).1 = Throw SourceNotReady ↔
  glueIsSourceLoaded source = false) as Hnew.
{ intros gl glue source. split.
  - intros He. apply GlueTexture_new_throws in He as [[_ Hl]|[Hdup _]]; [done|].
    by apply SourceNotReady_not_duplicate in Hdup.
  - intros Hl. unfold GlueTexture_new. destruct source as [s|]; [|done].
    by rewrite Hl. }
assert (∀ w source,
  (update source w).1 = Throw SourceNotReady →
  ∃ s, source = Some s ∧ glueIsSourceLoaded (Some s) = false) as Hupd.
{ intros w source. rewrite update_eq.
  destruct (_disposed (self w)); [by intros [=]|].
  destruct source as [s|]; [|by intros [=]].
  destruct (glueIsSourceLoaded (Some s)) eqn:Hl; [by intros [=]|].
  intros _. by exists s. }
split; [done|]. split; [done|]. split.
{ intros [img|vid|cnv] Himg Hvid; [by destruct (Himg img)
                                  |by destruct (Hvid vid)|done]. }
split.
{ intros gl glue source. rewrite Hnew. apply not_loaded_inv. }
split.
{ intros w source He. apply Hupd in He as (s & -> & Hl).
  apply not_loaded_inv in Hl as [Hl|Hl]; [done|exact Hl]. }
intros gl glue w cnv. split.
- rewrite Hnew. done.
- intros He. by apply Hupd in He as (s & [= <-] & Hl).
Qed.

End Properties.

(** ** The properties on concrete inputs *)

(** After [dispose()] on the demo texture, [program('~default')] still
    returns the default program. *)
Lemma dispose_leaves_guards_open_demo :
  _disposed (self (dispose demo_world).2) = false
  ∧ (update None (dispose demo_world).2).1 = Normal ()
  ∧ (use None (dispose demo_world).2).1 = Normal ()
  ∧ (∀ name,
       (program name (dispose demo_world).2).1
       = Normal (get (_programs demo_texture) name))
  ∧ (∀ name fragment vertex,
       (registerProgram demo_shaders name fragment vertex
          (dispose demo_world).2).1
       ≠ Throw Disposed).
Proof.
exact (dispose_leaves_guards_open demo_shaders demo_world demo_world_reachable).
Defined.

(** [draw({width: 0, height: 50})] on the 200x100 demo texture: both
    dimensions are given, yet the size uniform is (200, 100). *)
Lemma draw_zero_width_uses_native_size :
  width zero_width_options = Some 0%float
  ∧ height zero_width_options = Some 50%float
  ∧ ∃ u : Uniforms,
      draw demo_shaders zero_width_options demo_world
      = (Normal (),
         {| self := demo_texture;
            calls := calls demo_world ++
              [gl_activeTexture GL.TEXTURE1;
               gl_bindTexture GL.TEXTURE_2D 7%N;
               GlueProgram_apply (demo_program "void main() { normal(); }")
                 (Some u) None] |})
      ∧ iSize u = (200, 100)%float
      ∧ iSize u ≠ (0, 50)%float.
Proof.
split; [reflexivity|]. split; [reflexivity|].
eexists. split; [vm_compute; reflexivity|]. split; [reflexivity|].
cbn [iSize]. intros Heq.
apply (f_equal (λ size : number * number, PrimFloat.is_zero size.1)) in Heq.
vm_compute in Heq. discriminate Heq.
Qed.

(** [draw({width: -5, height: -3})] on the demo texture passes (-5, -3). *)
Lemma draw_size_uniform_demo :
  ∃ u : Uniforms,
    draw demo_shaders negative_size_options demo_world
    = (Normal (),
       {| self := demo_texture;
          calls := calls demo_world ++
            [gl_activeTexture GL.TEXTURE1;
             gl_bindTexture GL.TEXTURE_2D 7%N;
             GlueProgram_apply (demo_program "void main() { normal(); }")
               (Some u) None] |})
    ∧ iSize u = (-5, -3)%float.
Proof.
destruct (draw_size_uniform demo_shaders demo_world negative_size_options
            (demo_program "void main() { normal(); }") eq_refl eq_refl)
  as (u & Hdraw & _ & Hnegative & _).
exists u. split; [exact Hdraw|].
apply Hnegative; reflexivity.
Defined.

(** The example of the specification, on the 200x100 demo texture. *)
#[warnings="-inexact-float"] Lemma draw_uniforms_demo :
  draw demo_shaders multiply_options demo_world
  = (Normal (),
     {| self := demo_texture;
        calls := calls demo_world ++
          [gl_activeTexture GL.TEXTURE1;
           gl_bindTexture GL.TEXTURE_2D 7%N;
           GlueProgram_apply (demo_program "void main() { multiply(); }")
             (Some {| iImage := 1;
                      iSize := (200, 100)%float;
                      iOffset := (0.05, 0.2)%float;
                      iOpacity := 0.5 |})
             None] |}).
Proof.
exact (proj2 (proj2 (draw_uniforms demo_shaders)) demo_world "multiply"
         (demo_program "void main() { multiply(); }")
         eq_refl eq_refl eq_refl eq_refl).
Defined.

Lemma demo_modes_distinct : NoDup (GlueBlendMode demo_shaders).
Proof. apply (bool_decide_unpack _). vm_compute. exact I. Defined.

(** Constructing the demo texture registers 3 + 1 programs. *)
Lemma constructor_registers_programs_demo :
  ∃ (t : GlueTexture) (gl' : list Call),
    GlueTexture_new demo_shaders [] demo_glue (Some demo_image) = (Normal t, gl')
    ∧ size (_programs t) = 4
    ∧ _programs t !! "~default" = Some (built demo_shaders None ∅)
    ∧ (∀ m, m ∈ ["normal"; "multiply"; "screen"] →
         _programs t !! ("~blend_" +:+ m)
         = Some (built demo_shaders (blendFragmentShaders demo_shaders !! m) ∅)
         ∧ hasProgram ("~blend_" +:+ m) {| self := t; calls := gl' |}
           = (Normal true, {| self := t; calls := gl' |}))
    ∧ (∀ k, is_Some (_programs t !! k) →
         k = "~default"
         ∨ ∃ m, m ∈ ["normal"; "multiply"; "screen"] ∧ k = "~blend_" +:+ m).
Proof.
exact (constructor_registers_programs demo_shaders [] demo_glue demo_image
         demo_modes_distinct eq_refl).
Defined.

(** [update(pending_image)] on the demo texture. *)
Lemma update_not_ready_unchanged_demo :
  update (Some pending_image) demo_world = (Throw SourceNotReady, demo_world)
  ∧ _width (self (update (Some pending_image) demo_world).2) = 200%float
  ∧ _height (self (update (Some pending_image) demo_world).2) = 100%float
  ∧ _source (self (update (Some pending_image) demo_world).2) = demo_image.
Proof.
exact (update_not_ready_unchanged demo_world pending_image eq_refl eq_refl).
Defined.

(** Registering ["~default"] again, and registering ["glow"] twice. *)
Lemma registerProgram_duplicate_demo :
  (registerProgram demo_shaders "~default" (Some "void main() {}") None
     demo_world
   = (Throw (DuplicateName "~default"), demo_world)
   ∧ program "~default"
       (registerProgram demo_shaders "~default" (Some "void main() {}") None
          demo_world).2
     = (Normal (Some (Own (demo_program "void main() { fragment(); }"))),
        demo_world))
  ∧ (∃ (p : GlueProgram) (w1 : World),
      registerProgram demo_shaders "glow" (Some "void main() { glow(); }") None
        demo_world
      = (Normal p, w1)
      ∧ registerProgram demo_shaders "glow" (Some "void main() {}") None w1
        = (Throw (DuplicateName "glow"), w1)
      ∧ program "glow" w1 = (Normal (Some (Own p)), w1))
  ∧ registerProgram demo_shaders "toString" None None demo_world
    = (Throw (DuplicateName "toString"), demo_world).
Proof.
split; [|split].
- exact (proj1 (registerProgram_duplicate demo_shaders) demo_world "~default"
           (demo_program "void main() { fragment(); }")
           (Some "void main() {}") None eq_refl eq_refl).
- exact (proj1 (proj2 (registerProgram_duplicate demo_shaders)) demo_world
           "glow" (Some "void main() { glow(); }") None
           (Some "void main() {}") None eq_refl eq_refl).
- apply (proj2 (proj2 (registerProgram_duplicate demo_shaders)) demo_world
           "toString" None None eq_refl).
  apply (bool_decide_unpack _). vm_compute. exact I.
Defined.

(** [draw({mode: 'nonexistent'})] on the demo texture. *)
Lemma draw_invalid_blend_mode_demo :
  ∃ issued : list Call,
    draw demo_shaders nonexistent_options demo_world
    = (Throw InvalidBlendMode,
       {| self := demo_texture; calls := calls demo_world ++ issued |})
    ∧ issued = [gl_activeTexture GL.TEXTURE1; gl_bindTexture GL.TEXTURE_2D 7%N]
    ∧ Forall (λ c, ∀ p u m, c ≠ GlueProgram_apply p u m) issued.
Proof.
exact (draw_invalid_blend_mode demo_shaders demo_world nonexistent_options
         demo_world_reachable eq_refl).
Defined.






(** ** Further properties of the class *)

Section Registry.
Variable shaders : GlueShaderSources.

Lemma World_eta (w : World) : {| self := self w; calls := calls w |} = w.
Proof. by destruct w. Qed.

Lemma set_programs_id (f : gmap string GlueProgram → gmap string GlueProgram)
    (t : GlueTexture) :
  f (_programs t) = _programs t → set_programs f t = t.
Proof. destruct t. unfold set_programs. simpl. by intros ->. Qed.

Lemma set_imports_id (f : gmap string string → gmap string string)
    (t : GlueTexture) :
  f (_imports t) = _imports t → set_imports f t = t.
Proof. destruct t. unfold set_imports. simpl. by intros ->. Qed.

Lemma deregisterProgram_eq (name : string) (w : World) :
  deregisterProgram name w
  = if _disposed (self w) then (Throw Disposed, w)
    else
      match get (_programs (self w)) name with
      | Some (Own p) =>
          (Normal (),
           {| self := set_programs (delete name) (self w);
              calls := calls w ++ [GlueProgram_dispose p] |})
      | Some (Inherited _) => (Throw NotAFunction, w)
      | None =>
          (Normal (),
           {| self := set_programs (delete name) (self w);
              calls := calls w |})
      end.
Proof.
unfold deregisterProgram, mbind, Method_bind, this, assign, call, mret,
  Method_ret, throw.
rewrite checkDisposed_eq. destruct (_disposed (self w)); [done|].
by destruct (get (_programs (self w)) name) as [[p|member]|].
Qed.

Lemma deregisterImport_eq (name : string) (w : World) :
  deregisterImport name w
  = if _disposed (self w) then (Throw Disposed, w)
    else (Normal (),
          {| self := set_imports (delete name) (self w); calls := calls w |}).
Proof.
unfold deregisterImport, mbind, Method_bind, assign.
rewrite checkDisposed_eq. by destruct (_disposed (self w)).
Qed.

(** X1: [deregisterProgram(name)] for a name that is not registered
    changes nothing: no field is written and no command is issued. It returns
    normally when [this._programs[name]] is undefined; when the name is that
    of a member of [Object.prototype], the call [?.dispose()] on the inherited
    member throws a [TypeError]. *)
Theorem deregisterProgram_absent (w : World) (name : string) :
  _disposed (self w) = false →
  _programs (self w) !! name = None →
  (name ∉ Object_prototype → deregisterProgram name w = (Normal (), w))
  ∧ (name ∈ Object_prototype →
     deregisterProgram name w = (Throw NotAFunction, w)).
Proof.
intros Hd Hname. split; intros Hin; rewrite deregisterProgram_eq, Hd.
- rewrite (proj2 (get_None _ _)) by done.
  rewrite set_programs_id by by apply delete_id.
  by rewrite World_eta.
- by rewrite get_inherited.
Qed.

(** X2: [deregisterProgram(name)] for a registered name disposes exactly
    that program and removes exactly that key: afterwards [hasProgram(name)]
    is [false] and [program(name)] is [undefined], while every other name,
    the import table, the source and the dimensions are as before. (A
    registered name is never that of a member of [Object.prototype]:
    [Reachable_own_names].) *)
Theorem deregisterProgram_present (w : World) (name : string)
    (p : GlueProgram) :
  _disposed (self w) = false →
  name ∉ Object_prototype →
  _programs (self w) !! name = Some p →
  ∃ w' : World,
    deregisterProgram name w = (Normal (), w')
    ∧ calls w' = calls w ++ [GlueProgram_dispose p]
    ∧ hasProgram name w' = (Normal false, w')
    ∧ program name w' = (Normal None, w')
    ∧ (∀ k, k ≠ name → _programs (self w') !! k = _programs (self w) !! k)
    ∧ _imports (self w') = _imports (self w)
    ∧ _source (self w') = _source (self w)
    ∧ (_width (self w'), _height (self w'))
      = (_width (self w), _height (self w)).
Proof.
intros Hd Hown Hname. eexists. split.
{ rewrite deregisterProgram_eq, Hd, (get_own _ _ _ Hname). reflexivity. }
assert (get (delete name (_programs (self w))) name = None) as Hgone.
{ apply get_None. split; [apply lookup_delete_eq|done]. }
cbn [self calls]. split; [done|]. split.
{ unfold hasProgram, mbind, Method_bind, this, mret, Method_ret.
  cbn [self set_programs _programs]. by rewrite Hgone. }
split.
{ rewrite program_eq. cbn [self set_programs _programs _disposed].
  by rewrite Hd, Hgone. }
split; [|done].
intros k Hk. cbn [set_programs _programs]. by rewrite lookup_delete_ne.
Qed.

(** X3: a name becomes free again once it is deregistered:
    [deregisterProgram(name)] followed by [registerProgram(name, ...)]
    succeeds where [registerProgram] alone would throw, and the registry then
    maps [name] to the new program, built from the current import table; the
    old program is disposed first. (A registered name is never that of a
    member of [Object.prototype]: [Reachable_own_names].) *)
Theorem deregister_then_register (w : World) (name : string)
    (old : GlueProgram) (fragment vertex : option string) :
  _disposed (self w) = false →
  name ∉ Object_prototype →
  _programs (self w) !! name = Some old →
  ∃ (p : GlueProgram) (w' : World),
    (deregisterProgram name;;
     registerProgram shaders name fragment vertex) w = (Normal p, w')
    ∧ p = {| fragmentShader :=
               or_string fragment (defaultFragmentShader shaders);
             vertexShader := or_string vertex (defaultVertexShader shaders);
             imports := _imports (self w) |}
    ∧ _programs (self w') !! name = Some p
    ∧ calls w' = calls w ++ [GlueProgram_dispose old; GlueProgram_new p]
    ∧ (registerProgram shaders name fragment vertex w).1
      = Throw (DuplicateName name).
Proof.
intros Hd Hown Hname. eexists _, _. split.
{ unfold mbind, Method_bind.
  rewrite deregisterProgram_eq, Hd, (get_own _ _ _ Hname).
  rewrite registerProgram_own_eq by done.
  cbn [self set_programs _disposed _programs].
  rewrite Hd, lookup_delete_eq. reflexivity. }
cbn [self calls set_programs _programs _imports].
split; [done|]. split; [apply lookup_insert_eq|].
split; [by rewrite <- app_assoc|].
by rewrite registerProgram_eq, Hd, (get_own _ _ _ Hname).
Qed.

(** X4: registering a name under which [this._programs[name]] is undefined
    and deregistering it again leaves the object exactly as it was; the
    command log gains the construction and the disposal of the one
    program. *)
Theorem register_deregister_roundtrip (w : World) (name : string)
    (fragment vertex : option string) :
  _disposed (self w) = false →
  get (_programs (self w)) name = None →
  ∃ p : GlueProgram,
    (registerProgram shaders name fragment vertex;;
     deregisterProgram name) w
    = (Normal (),
       {| self := self w;
          calls := calls w ++ [GlueProgram_new p; GlueProgram_dispose p] |}).
Proof.
intros Hd Hname. eexists.
unfold mbind, Method_bind. rewrite registerProgram_eq, Hd, Hname.
cbv beta iota zeta. rewrite deregisterProgram_eq.
cbn [self calls set_programs _disposed _programs].
rewrite Hd, (get_own _ _ _ (lookup_insert_eq _ _ _)), <- app_assoc.
do 2 f_equal. apply get_None in Hname as [Hname _].
destruct (self w) as [g src wd ht d tex ps imps]. unfold set_programs.
cbn in *. by rewrite delete_insert_id.
Qed.

End Registry.

Section Lifecycle.
Variable shaders : GlueShaderSources.

(** *** update with a loaded source *)

(** X5: on a texture that is not disposed, [update(source)] with a loaded
    source stores that source and its dimensions, keeps the texture handle,
    the programs and the imports, and uploads the new source (not the old
    one) into the same texture; a second [update(source)] with the same
    source writes the same values again, so the object does not change. *)
Theorem update_loaded_source (w : World) (source : GlueSourceType) :
  _disposed (self w) = false →
  glueIsSourceLoaded (Some source) = true →
  ∃ w' : World,
    update (Some source) w = (Normal (), w')
    ∧ _source (self w') = source
    ∧ (_width (self w'), _height (self w')) = glueGetSourceDimensions source
    ∧ _texture (self w') = _texture (self w)
    ∧ _programs (self w') = _programs (self w)
    ∧ _imports (self w') = _imports (self w)
    ∧ calls w' = calls w ++
        [gl_activeTexture GL.TEXTURE1;
         gl_bindTexture GL.TEXTURE_2D (_texture (self w));
         gl_pixelStorei GL.UNPACK_FLIP_Y_WEBGL true;
         gl_texImage2D GL.TEXTURE_2D 0 GL.RGBA GL.RGBA GL.UNSIGNED_BYTE source]
    ∧ ∃ w'' : World,
        update (Some source) w' = (Normal (), w'') ∧ self w'' = self w'.
Proof.
intros Hd Hloaded. eexists. split.
{ rewrite update_eq, Hd, Hloaded. reflexivity. }
cbn [self calls set_source set_width set_height _source _width _height
     _texture _programs _imports].
split; [done|]. split; [by destruct (glueGetSourceDimensions source)|].
do 4 (split; [done|]).
eexists. split.
{ rewrite update_eq. cbn [self set_source set_height set_width _disposed].
  rewrite Hd, Hloaded.
  reflexivity. }
reflexivity.
Qed.

(** *** What a call can do to the object *)

Lemma invoke_self (i : Invocation) (w : World) :
  self (invoke shaders i w).2 = self w
  ∨ (∃ f, self (invoke shaders i w).2 = set_programs f (self w))
  ∨ (∃ f, self (invoke shaders i w).2 = set_imports f (self w))
  ∨ (∃ s, glueIsSourceLoaded (Some s) = true
          ∧ self (invoke shaders i w).2
            = set_source s
                (set_height (glueGetSourceDimensions s).2
                   (set_width (glueGetSourceDimensions s).1 (self w)))).
Proof.
destruct i as [o|source|name fragment vertex|name|name|name|target
              |name source|name|]; cbn [invoke].
- rewrite draw_eq. left.
  destruct (_disposed (self w)); [done|]. cbv zeta.
  by destruct (_programs (self w) !! _).
- rewrite update_eq. destruct (_disposed (self w)); [by left|].
  destruct source as [s|]; [|by left].
  destruct (glueIsSourceLoaded (Some s)) eqn:Hl; [|by left].
  right. right. right. by exists s.
- unfold mbind, Method_bind. rewrite registerProgram_eq.
  destruct (_disposed (self w)); [by left|].
  destruct (get (_programs (self w)) name); [by left|].
  right. left. by eexists.
- rewrite deregisterProgram_eq. destruct (_disposed (self w)); [by left|].
  destruct (get (_programs (self w)) name) as [[p|member]|]; [|by left|];
    right; left; by eexists.
- by left.
- unfold mbind, Method_bind. rewrite program_eq. left.
  by destruct (_disposed (self w)).
- rewrite use_eq. left. by destruct (_disposed (self w)).
- rewrite registerImport_eq. destruct (_disposed (self w)); [by left|].
  right. right. left. by eexists.
- rewrite deregisterImport_eq. destruct (_disposed (self w)); [by left|].
  right. right. left. by eexists.
- by left.
Qed.

(** *** What the constructor leaves in the fields *)

Lemma field_ret {F A} (field : GlueTexture → F) (a : A) :
  keeps_field field (mret a).
Proof. by intros w. Qed.

Lemma field_call {F} (field : GlueTexture → F) (c : Call) :
  keeps_field field (call c).
Proof. by intros w. Qed.

Lemma field_bind {F A B} (field : GlueTexture → F) (m : Method A)
    (f : A → Method B) :
  keeps_field field m → (∀ a, keeps_field field (f a)) →
  keeps_field field (m ≫= f).
Proof.
intros Hm Hf w. unfold mbind, Method_bind. specialize (Hm w).
destruct (m w) as [[a|e] w']; simpl in *; [|done].
by rewrite Hf.
Qed.

Lemma field_for_of {F A} (field : GlueTexture → F) (l : list A)
    (body : A → Method unit) :
  (∀ a, keeps_field field (body a)) → keeps_field field (for_of l body).
Proof.
intros Hbody. induction l as [|a l IH]; simpl.
- apply field_ret.
- apply field_bind; [apply Hbody | intros _; apply IH].
Qed.

Lemma field_registerProgram name fragment vertex :
  keeps_field resource (registerProgram shaders name fragment vertex).
Proof.
intros w. rewrite registerProgram_eq. destruct (_disposed (self w)); [done|].
by destruct (get (_programs (self w)) name).
Qed.

Lemma field_program name : keeps_field resource (program name).
Proof. intros w. rewrite program_eq. by destruct (_disposed (self w)). Qed.

Lemma GlueTexture_new_resource gl glue source t gl' :
  GlueTexture_new shaders gl glue source = (Normal t, gl') →
  ∃ s, source = Some s
       ∧ glueIsSourceLoaded (Some s) = true
       ∧ resource t
         = (glue, s, (glueGetSourceDimensions s).1,
            (glueGetSourceDimensions s).2, false,
            _createTexture glue GL.TEXTURE1, ∅).
Proof.
unfold GlueTexture_new. destruct source as [s|]; [|done].
destruct (glueIsSourceLoaded (Some s)) eqn:Hl; cbn [negb]; [|done].
destruct (glueGetSourceDimensions s) as [wd ht] eqn:Hdims.
match goal with
| |- context [match ?body ?w0 with _ => _ end] =>
    assert (keeps_field resource body) as Hk;
      [|specialize (Hk w0); destruct (body w0) as [[?|?] w1]]
end.
- repeat first
    [ apply field_call | apply field_ret | apply field_program
    | apply field_registerProgram | apply field_bind | apply field_for_of
    | progress unfold apply_member
    | lazymatch goal with
      | |- keeps_field _ _ => fail
      | |- ∀ _, _ => intros ?
      end
    | match goal with
      | |- keeps_field _ (match ?v with _ => _ end) => destruct v
      end ].
- intros [= <- _]. exists s. split; [done|]. split; [done|].
  rewrite Hdims. exact Hk.
- done.
Qed.

(** *** Registered names are never inherited names *)

Lemma preserves_ret {A} P (a : A) : preserves P (mret a).
Proof. by intros w. Qed.

Lemma preserves_call P (c : Call) : preserves P (call c).
Proof. by intros w. Qed.

Lemma preserves_bind {A B} P (m : Method A) (f : A → Method B) :
  preserves P m → (∀ a, preserves P (f a)) → preserves P (m ≫= f).
Proof.
intros Hm Hf w Hw. unfold mbind, Method_bind. specialize (Hm w Hw).
destruct (m w) as [[a|e] w']; simpl in *; [|done].
by apply Hf.
Qed.

Lemma preserves_for_of {A} P (l : list A) (body : A → Method unit) :
  (∀ a, preserves P (body a)) → preserves P (for_of l body).
Proof.
intros Hbody. induction l as [|a l IH]; simpl.
- apply preserves_ret.
- apply preserves_bind; [apply Hbody | intros _; apply IH].
Qed.

Lemma own_names_insert (t : GlueTexture) (name : string) (p : GlueProgram) :
  name ∉ Object_prototype → own_names t →
  own_names (set_programs (insert name p) t).
Proof.
intros Hname Ht k Hk. cbn. rewrite lookup_insert_ne; [by apply Ht|].
by intros ->.
Qed.

Lemma own_names_delete (t : GlueTexture) (name : string) :
  own_names t → own_names (set_programs (delete name) t).
Proof.
intros Ht k Hk. cbn. apply lookup_delete_None. right. by apply Ht.
Qed.

Lemma preserves_registerProgram name fragment vertex :
  preserves own_names (registerProgram shaders name fragment vertex).
Proof.
intros w Hw. rewrite registerProgram_eq. destruct (_disposed (self w)); [done|].
destruct (get (_programs (self w)) name) eqn:Hget; [done|].
apply get_None in Hget as [_ Hname]. by apply own_names_insert.
Qed.

Lemma preserves_program P name : preserves P (program name).
Proof. intros w Hw. rewrite program_eq. by destruct (_disposed (self w)). Qed.

Lemma GlueTexture_new_own_names gl glue source t gl' :
  GlueTexture_new shaders gl glue source = (Normal t, gl') → own_names t.
Proof.
unfold GlueTexture_new. destruct source as [s|]; [|done].
destruct (negb _); [done|].
destruct (glueGetSourceDimensions s) as [wd ht].
match goal with
| |- context [match ?body ?w0 with _ => _ end] =>
    assert (preserves own_names body) as Hk;
      [|specialize (Hk w0); destruct (body w0) as [[?|?] w1]]
end.
- repeat first
    [ apply preserves_call | apply preserves_ret | apply preserves_program
    | apply preserves_registerProgram | apply preserves_bind
    | apply preserves_for_of | progress unfold apply_member
    | lazymatch goal with
      | |- preserves _ _ => fail
      | |- ∀ _, _ => intros ?
      end
    | match goal with
      | |- preserves _ (match ?v with _ => _ end) => destruct v
      end ].
- intros [= <- _]. apply Hk. intros k _. apply lookup_empty.
- done.
Qed.

Lemma invoke_own_names (i : Invocation) :
  preserves own_names (invoke shaders i).
Proof.
destruct i as [o|source|name fragment vertex|name|name|name|target
              |name source|name|]; cbn [invoke].
- intros w Hw. rewrite draw_eq. destruct (_disposed (self w)); [done|].
  cbv zeta. by destruct (_programs (self w) !! _).
- intros w Hw. rewrite update_eq. destruct (_disposed (self w)); [done|].
  destruct source as [s|]; [|done].
  by destruct (glueIsSourceLoaded (Some s)).
- apply preserves_bind; [apply preserves_registerProgram|].
  intros _. apply preserves_ret.
- intros w Hw. rewrite deregisterProgram_eq.
  destruct (_disposed (self w)); [done|].
  destruct (get (_programs (self w)) name) as [[p|member]|]; [|done|];
    by apply own_names_delete.
- by intros w Hw.
- apply preserves_bind; [apply preserves_program|].
  intros _. apply preserves_ret.
- intros w Hw. rewrite use_eq. by destruct (_disposed (self w)).
- intros w Hw. rewrite registerImport_eq. by destruct (_disposed (self w)).
- intros w Hw. rewrite deregisterImport_eq. by destruct (_disposed (self w)).
- by intros w Hw.
Qed.

(** On every texture a client can hold, no program is registered under the
    name of a member of [Object.prototype]. *)
Lemma Reachable_own_names (w : World) (name : string) :
  Reachable shaders w →
  is_Some (_programs (self w) !! name) → name ∉ Object_prototype.
Proof.
intros Hw [q Hq] Hin.
assert (own_names (self w)) as Hown.
{ clear q Hq. induction Hw as [gl glue source t gl' Hnew|i w _ IH].
  - by eapply GlueTexture_new_own_names.
  - by apply invoke_own_names. }
by rewrite Hown in Hq.
Qed.

(** X6: on every texture a client can hold, the stored dimensions are the
    dimensions of the stored source, the stored source passed the readiness
    check, the texture handle is the one [glue._createTexture(gl.TEXTURE1)]
    returned to the constructor, and the disposed flag is clear. *)
Theorem Reachable_consistent (w : World) :
  Reachable shaders w →
  (_width (self w), _height (self w))
  = glueGetSourceDimensions (_source (self w))
  ∧ glueIsSourceLoaded (Some (_source (self w))) = true
  ∧ _texture (self w) = _createTexture (glue (self w)) GL.TEXTURE1
  ∧ _disposed (self w) = false.
Proof.
induction 1 as [gl glue source t gl' Hnew|i w _ IH]; cbn [self].
- apply GlueTexture_new_resource in Hnew as (s & _ & Hl & Hres).
  destruct t; cbv [resource] in Hres; cbn in *.
  injection Hres as -> -> -> -> -> -> _.
  by destruct (glueGetSourceDimensions s).
- destruct IH as (Hdims & Hl & Htex & Hd).
  destruct (invoke_self i w) as [->|[[f ->]|[[f ->]|(s & Hs & ->)]]];
    cbn [set_programs set_imports set_source set_width set_height
         _width _height _source _texture _disposed glue]; try done.
  by destruct (glueGetSourceDimensions s).
Qed.

(** *** Calls that fail, calls that only read *)

(** X7: the errors the class itself raises come before any write. A
    public method call can fail with the disposed, source-not-loaded,
    duplicate-name or invalid-blend-mode error of a [throw] statement, or
    with the [TypeError] of [deregisterProgram] on an inherited name; when
    it does, no field has been written and no command issued, for every
    method but [draw]; a failed [draw] leaves the object as it was, and the
    command log too when the error is the disposed error. (An exception
    raised inside a WebGL call, such as [gl.texImage2D], is outside this
    embedding and not covered.) *)
Theorem failed_call_changes_nothing (i : Invocation) (w : World) (e : Error) :
  (invoke shaders i w).1 = Throw e →
  (e = Disposed ∨ e = SourceNotReady ∨ e = InvalidBlendMode
   ∨ e = NotAFunction ∨ ∃ name, e = DuplicateName name)
  ∧ match i with
    | call_draw o =>
        self (draw shaders o w).2 = self w
        ∧ (e = Disposed → (draw shaders o w).2 = w)
    | _ => (invoke shaders i w).2 = w
    end.
Proof.
destruct i as [o|source|name fragment vertex|name|name|name|target
              |name source|name|]; cbn [invoke].
- rewrite draw_eq. destruct (_disposed (self w)); [intros [= <-]; auto|].
  cbv zeta. destruct (_programs (self w) !! _); [done|].
  cbn. intros [= <-]. split; [auto|]. split; [done|]. intros [=].
- rewrite update_eq. destruct (_disposed (self w)); [intros [= <-]; auto|].
  destruct source as [s|]; [|done].
  destruct (glueIsSourceLoaded (Some s)); [done|]. intros [= <-]. auto.
- unfold mbind, Method_bind. rewrite registerProgram_eq.
  destruct (_disposed (self w)); [intros [= <-]; auto|].
  destruct (get (_programs (self w)) name); [|done].
  intros [= <-]. split; [|done]. do 4 right. by exists name.
- rewrite deregisterProgram_eq.
  destruct (_disposed (self w)); [intros [= <-]; auto|].
  destruct (get (_programs (self w)) name) as [[p|member]|]; [done| |done].
  intros [= <-]. auto 6.
- done.
- unfold mbind, Method_bind. rewrite program_eq.
  destruct (_disposed (self w)); [intros [= <-]; auto|done].
- rewrite use_eq. destruct (_disposed (self w)); [intros [= <-]; auto|done].
- rewrite registerImport_eq.
  destruct (_disposed (self w)); [intros [= <-]; auto|done].
- rewrite deregisterImport_eq.
  destruct (_disposed (self w)); [intros [= <-]; auto|done].
- done.
Qed.

End Lifecycle.

Section Drawing.
Variable shaders : GlueShaderSources.

(** X8: [draw], [use], [program], [hasProgram] and [dispose] never write a
    field of the texture, whether they return or throw; [program] and
    [hasProgram] issue no command either. *)
Theorem observers_keep_object (w : World) :
  (∀ o, self (draw shaders o w).2 = self w)
  ∧ (∀ target, self (use target w).2 = self w)
  ∧ (∀ name, (program name w).2 = w)
  ∧ (∀ name, (hasProgram name w).2 = w)
  ∧ self (dispose w).2 = self w.
Proof.
split; [|split; [|split; [|split]]].
- intros o. rewrite draw_eq. destruct (_disposed (self w)); [done|].
  cbv zeta. by destruct (_programs (self w) !! _).
- intros target. rewrite use_eq. by destruct (_disposed (self w)).
- intros name. rewrite program_eq. by destruct (_disposed (self w)).
- done.
- done.
Qed.

(** X9: [draw] always samples unit 1. After [use(target)] has bound the
    texture to the unit [target] - or to [TEXTURE1] when [target] is absent,
    zero or NaN - a following [draw] activates [TEXTURE1] and binds the
    texture again before it applies the program with [iImage = 1]. *)
Theorem use_then_draw (w : World) (target : option number)
    (o : GlueTextureDrawOptions) (p : GlueProgram) :
  _disposed (self w) = false →
  _programs (self w)
    !! ("~blend_" +:+ default (GlueBlendMode_NORMAL shaders) (mode o)) = Some p →
  ∃ (unit : number) (u : Uniforms),
    (use target;; draw shaders o) w
    = (Normal (),
       {| self := self w;
          calls := calls w ++
            [gl_activeTexture unit;
             gl_bindTexture GL.TEXTURE_2D (_texture (self w));
             gl_activeTexture GL.TEXTURE1;
             gl_bindTexture GL.TEXTURE_2D (_texture (self w));
             GlueProgram_apply p (Some u) (mask o)] |})
    ∧ iImage u = 1%float
    ∧ (∀ v, target = Some v → PrimFloat.is_zero v = false →
            PrimFloat.is_nan v = false → unit = v)
    ∧ (target = None
       ∨ (∃ v, target = Some v
               ∧ (PrimFloat.is_zero v = true ∨ PrimFloat.is_nan v = true)) →
       unit = GL.TEXTURE1).
Proof.
intros Hd Hp. eexists _, _. split.
{ unfold mbind, Method_bind. rewrite use_eq, Hd, draw_eq. cbn [self calls].
  rewrite Hd, Hp, <- app_assoc. reflexivity. }
split; [done|]. split.
- intros v -> Hz Hn. cbn [or_number]. by rewrite truthy_true.
- intros [->|(v & -> & Hv)]; [done|]. cbn [or_number].
  by rewrite truthy_false.
Qed.

(** X10: the reserved blend programs are not protected. Once
    [deregisterProgram("~blend_" + mode)] has run, a [draw] with that mode -
    the default mode included - throws ['Invalid blend mode.']. *)
Theorem deregister_blend_then_draw (w : World) (o : GlueTextureDrawOptions) :
  _disposed (self w) = false →
  ((deregisterProgram
      ("~blend_" +:+ default (GlueBlendMode_NORMAL shaders) (mode o));;
    draw shaders o) w).1
  = Throw InvalidBlendMode.
Proof.
intros Hd. unfold mbind, Method_bind.
rewrite deregisterProgram_eq, Hd, get_blend.
destruct (_programs (self w) !! _); cbn [fmap option_fmap option_map];
  rewrite draw_eq; cbn [self set_programs _disposed _programs];
  by rewrite Hd, lookup_delete_eq.
Qed.

(** X11: a blend mode outside the enumeration can be added by registering a
    program under ["~blend_" + mode]: a following [draw] with that mode
    applies the program just registered. *)
Theorem custom_blend_mode (w : World) (o : GlueTextureDrawOptions)
    (m : string) (fragment vertex : option string) :
  _disposed (self w) = false →
  mode o = Some m →
  _programs (self w) !! ("~blend_" +:+ m) = None →
  ∃ (p : GlueProgram) (u : Uniforms) (w' : World),
    (registerProgram shaders ("~blend_" +:+ m) fragment vertex;;
     draw shaders o) w = (Normal (), w')
    ∧ fragmentShader p = or_string fragment (defaultFragmentShader shaders)
    ∧ vertexShader p = or_string vertex (defaultVertexShader shaders)
    ∧ _programs (self w') !! ("~blend_" +:+ m) = Some p
    ∧ calls w' = calls w ++
        [GlueProgram_new p;
         gl_activeTexture GL.TEXTURE1;
         gl_bindTexture GL.TEXTURE_2D (_texture (self w));
         GlueProgram_apply p (Some u) (mask o)].
Proof.
intros Hd Hm Hfresh.
exists {| fragmentShader := or_string fragment (defaultFragmentShader shaders);
          vertexShader := or_string vertex (defaultVertexShader shaders);
          imports := _imports (self w) |}.
eexists _, _. split.
{ unfold mbind, Method_bind.
  rewrite registerProgram_own_eq by apply blend_name_own.
  rewrite Hd, Hfresh.
  cbv beta iota zeta. rewrite draw_eq, Hm.
  cbn [self calls set_programs _disposed _programs default from_option id].
  rewrite Hd, lookup_insert_eq, <- app_assoc. reflexivity. }
cbn [self calls set_programs _programs fragmentShader vertexShader].
split; [done|]. split; [done|]. split; [apply lookup_insert_eq|done].
Qed.

(** X12: [draw] divides the offset by the stored dimensions without a
    check: on a texture whose stored width is 0 - a canvas of width 0 passes
    the readiness check - an [x] that is absent or 0 gives a NaN offset. *)
Theorem draw_zero_width_offset (w : World) (o : GlueTextureDrawOptions)
    (p : GlueProgram) :
  _disposed (self w) = false →
  _width (self w) = 0%float →
  x o = None ∨ x o = Some 0%float →
  _programs (self w)
    !! ("~blend_" +:+ default (GlueBlendMode_NORMAL shaders) (mode o)) = Some p →
  ∃ u : Uniforms,
    draw shaders o w
    = (Normal (),
       {| self := self w;
          calls := calls w ++
            [gl_activeTexture GL.TEXTURE1;
             gl_bindTexture GL.TEXTURE_2D (_texture (self w));
             GlueProgram_apply p (Some u) (mask o)] |})
    ∧ PrimFloat.is_nan (iOffset u).1 = true.
Proof.
intros Hd Hw Hx Hp. eexists. split.
{ rewrite draw_eq, Hd, Hp. reflexivity. }
cbn [iOffset fst]. rewrite Hw. by destruct Hx as [-> | ->].
Qed.

End Drawing.

Section Imports.
Variable shaders : GlueShaderSources.

(** X13: [deregisterImport(name)] never fails on a texture that is not
    disposed, whether or not the import exists; afterwards the table has no
    entry for [name], every other import and the program registry are as
    before, and a program registered next (under a name for which
    [this._programs[name]] is undefined) is built from the table without
    [name]. *)
Theorem deregisterImport_removes (w : World) (name : string) :
  _disposed (self w) = false →
  ∃ w' : World,
    deregisterImport name w = (Normal (), w')
    ∧ _imports (self w') !! name = None
    ∧ (∀ k, k ≠ name → _imports (self w') !! k = _imports (self w) !! k)
    ∧ _programs (self w') = _programs (self w)
    ∧ calls w' = calls w
    ∧ (∀ n fragment vertex,
         get (_programs (self w)) n = None →
         ∃ (p : GlueProgram) (w'' : World),
           registerProgram shaders n fragment vertex w' = (Normal p, w'')
           ∧ imports p !! name = None).
Proof.
intros Hd. eexists. split.
{ rewrite deregisterImport_eq, Hd. reflexivity. }
cbn [self calls set_imports _imports _programs].
split; [apply lookup_delete_eq|]. split.
{ intros k Hk. by apply lookup_delete_ne. }
do 2 (split; [done|]).
intros n fragment vertex Hn. eexists _, _. split.
{ rewrite registerProgram_eq. cbn [self set_imports _disposed _programs].
  rewrite Hd, Hn. reflexivity. }
cbn. apply lookup_delete_eq.
Qed.

(** X14: registering an import under a free name and deregistering it again
    leaves the world exactly as it was, and so does deregistering a name
    that has no import. *)
Theorem import_roundtrip (w : World) (name source : string) :
  _disposed (self w) = false →
  _imports (self w) !! name = None →
  (registerImport name source;; deregisterImport name) w = (Normal (), w)
  ∧ deregisterImport name w = (Normal (), w).
Proof.
intros Hd Hname. split.
- unfold mbind, Method_bind. rewrite registerImport_eq, Hd.
  rewrite deregisterImport_eq. cbn [self calls set_imports _disposed].
  rewrite Hd. f_equal. rewrite <- (World_eta w) at 3. f_equal.
  destruct (self w) as [g src wd ht d tex ps imps]. unfold set_imports, put.
  cbn in *. rewrite Hname.
  destruct (decide (name = "__proto__")); [by rewrite delete_id|].
  by rewrite delete_insert_id.
- rewrite deregisterImport_eq, Hd.
  rewrite set_imports_id by by apply delete_id.
  by rewrite World_eta.
Qed.

End Imports.

Section Construction.
Variable shaders : GlueShaderSources.

Lemma for_of_repeated_mode (modes : list string) (w : World) :
  _disposed (self w) = false →
  (∃ m, m ∈ modes ∧ is_Some (_programs (self w) !! ("~blend_" +:+ m)))
  ∨ ¬ NoDup modes →
  ∃ m, m ∈ modes
       ∧ (for_of modes (λ mode,
            registerProgram shaders ("~blend_" +:+ mode)
              (blendFragmentShaders shaders !! mode) None;;
            mret ()) w).1
         = Throw (DuplicateName ("~blend_" +:+ m)).
Proof.
revert w. induction modes as [|a modes IH]; intros w Hd Hrep.
{ destruct Hrep as [(m & Hm & _)|Hnd].
  - by apply elem_of_nil in Hm.
  - destruct Hnd. constructor. }
cbn [for_of]. unfold mbind at 1. unfold Method_bind at 1.
unfold mbind at 1. unfold Method_bind at 1.
rewrite registerProgram_own_eq by apply blend_name_own. rewrite Hd.
destruct (_programs (self w) !! ("~blend_" +:+ a)) as [q|] eqn:Ha.
{ exists a. split; [left|done]. }
cbv beta iota zeta. cbn [mret Method_ret].
match goal with |- context [for_of modes ?body ?w1] =>
  destruct (IH w1) as (m & Hm & Hthrow)
end.
- done.
- destruct Hrep as [(m & Hm & Hreg)|Hnd].
  + left. apply elem_of_cons in Hm as [->|Hm].
    * rewrite Ha in Hreg. by destruct Hreg.
    * exists m. split; [done|]. cbn [self set_programs _programs].
      destruct (decide ("~blend_" +:+ a = "~blend_" +:+ m)) as [->|Hne].
      -- rewrite lookup_insert_eq. by eexists.
      -- by rewrite lookup_insert_ne.
  + destruct (decide (a ∈ modes)) as [Hin|Hout].
    * left. exists a. split; [done|]. cbn [self set_programs _programs].
      rewrite lookup_insert_eq. by eexists.
    * right. intros Hnd'. apply Hnd. by constructor.
- exists m. split; [by right|]. exact Hthrow.
Qed.

(** X15: the constructor needs the values of the blend-mode enumeration to
    be pairwise distinct: on a loaded source, when a value occurs twice the
    constructor throws the duplicate-name error of a blend program and no
    texture object is returned. *)
Theorem constructor_repeated_mode (gl : list Call) (glue : Glue)
    (source : GlueSourceType) :
  ¬ NoDup (GlueBlendMode shaders) →
  glueIsSourceLoaded (Some source) = true →
  ∃ m, m ∈ GlueBlendMode shaders
       ∧ (GlueTexture_new shaders gl glue (Some source)).1
         = Throw (DuplicateName ("~blend_" +:+ m)).
Proof.
intros Hnd Hloaded. unfold GlueTexture_new. rewrite Hloaded. cbn [negb].
destruct (glueGetSourceDimensions source) as [wd ht].
unfold mbind at 1 2 3 4. unfold Method_bind at 1 2 3 4.
unfold call at 1 2 3. cbn [self calls].
rewrite registerProgram_own_eq by apply default_name_own.
cbn [self calls _disposed _programs].
rewrite lookup_empty. cbv beta iota zeta.
unfold mbind at 1. unfold Method_bind at 1.
match goal with |- context [for_of _ ?body ?w1] =>
  destruct (for_of_repeated_mode (GlueBlendMode shaders) w1)
    as (m & Hm & Hthrow)
end.
- done.
- by right.
- exists m. split; [done|].
  match type of Hthrow with (?r).1 = _ =>
    destruct r as [[?|e] w2]; cbn in Hthrow; [done|]
  end.
  by injection Hthrow as ->.
Qed.

(** X16: a texture is drawable as soon as it is constructed. When the
    enumeration's values are distinct and contain [NORMAL], constructing a
    texture from a loaded source and calling [draw()] with no argument
    applies the normal blend program with the source's own dimensions as
    size, zero pixel offsets, opacity 1 and no mask. *)
Theorem new_texture_draws (gl : list Call) (glue : Glue)
    (source : GlueSourceType) :
  NoDup (GlueBlendMode shaders) →
  GlueBlendMode_NORMAL shaders ∈ GlueBlendMode shaders →
  glueIsSourceLoaded (Some source) = true →
  ∃ (t : GlueTexture) (gl' : list Call),
    GlueTexture_new shaders gl glue (Some source) = (Normal t, gl')
    ∧ draw shaders no_options {| self := t; calls := gl' |}
      = (Normal (),
         {| self := t;
            calls := gl' ++
              [gl_activeTexture GL.TEXTURE1;
               gl_bindTexture GL.TEXTURE_2D (_createTexture glue GL.TEXTURE1);
               GlueProgram_apply
                 (built shaders
                    (blendFragmentShaders shaders
                       !! GlueBlendMode_NORMAL shaders) ∅)
                 (Some {| iImage := 1;
                          iSize := glueGetSourceDimensions source;
                          iOffset :=
                            (0 / (glueGetSourceDimensions source).1,
                             0 / (glueGetSourceDimensions source).2)%float;
                          iOpacity := 1 |})
                 None] |}).
Proof.
intros Hnd Hnormal Hloaded. eexists _, _.
split; [by apply GlueTexture_new_eq|].
rewrite draw_eq.
cbn [self calls constructed _disposed _programs _texture _width _height
     no_options mode x y opacity mask default from_option id].
rewrite with_blend_programs_lookup by done.
unfold draw_size. cbn. by destruct (glueGetSourceDimensions source).
Qed.

End Construction.

Section ContextProperties.
Variable getContext :
  HTMLCanvasElement → string → option (gmap string AttributeValue) →
  option RenderingContext.

(** X17: [glueGetWebGLContext] asks for a context only with
    [premultipliedAlpha: false], whatever the caller passed, and leaves every
    other attribute as given; it overwrites that attribute in the caller's
    own object. It returns the ['webgl'] context when there is one, the
    ['experimental-webgl'] context only when there is none, and throws
    exactly when both are [null]. Calling it again with the object it left
    behind gives the same result and leaves the object as it is. *)
Theorem glueGetWebGLContext_forces_alpha (canvas : HTMLCanvasElement)
    (options : option (gmap string AttributeValue)) :
  ∃ asked : gmap string AttributeValue,
    asked !! "premultipliedAlpha" = Some (boolean false)
    ∧ (∀ k, k ≠ "premultipliedAlpha" → asked !! k = default ∅ options !! k)
    ∧ (glueGetWebGLContext getContext canvas options).2
      = match options with Some _ => Some asked | None => None end
    ∧ (∀ c, (glueGetWebGLContext getContext canvas options).1 = Normal c ↔
            getContext canvas "webgl" (Some asked) = Some c
            ∨ (getContext canvas "webgl" (Some asked) = None
               ∧ getContext canvas "experimental-webgl" (Some asked) = Some c))
    ∧ ((glueGetWebGLContext getContext canvas options).1
         = Throw WebGLNotAvailable ↔
       getContext canvas "webgl" (Some asked) = None
       ∧ getContext canvas "experimental-webgl" (Some asked) = None)
    ∧ glueGetWebGLContext getContext canvas (Some asked)
      = ((glueGetWebGLContext getContext canvas options).1, Some asked).
Proof.
exists (<["premultipliedAlpha" := boolean false]> (default ∅ options)).
assert (match options with
        | Some o => <["premultipliedAlpha" := boolean false]> o
        | None => {["premultipliedAlpha" := boolean false]}
        end
        = <["premultipliedAlpha" := boolean false]> (default ∅ options))
  as Hasked.
{ destruct options; [done|]. symmetry. apply insert_empty. }
unfold glueGetWebGLContext. rewrite Hasked, insert_insert_eq.
set (asked := <["premultipliedAlpha" := boolean false]> (default ∅ options)).
split; [apply lookup_insert_eq|]. split.
{ intros k Hk. by apply lookup_insert_ne. }
split; [done|]. cbn [fst].
destruct (getContext canvas "webgl" (Some asked)) as [c1|];
  [|destruct (getContext canvas "experimental-webgl" (Some asked)) as [c2|]].
- split; [|split; [|done]].
  + intros c. split; [intros [= ->]; by left|].
    by intros [[= ->]|[[=] _]].
  + split; [done|]. by intros [[=] _].
- split; [|split; [|done]].
  + intros c. split; [intros [= ->]; by right|].
    by intros [[=]|[_ [= ->]]].
  + split; [done|]. by intros [_ [=]].
- split; [|split; [|done]].
  + intros c. split; [done|]. by intros [[=]|[_ [=]]].
  + done.
Qed.

End ContextProperties.

(** ** The further properties on concrete inputs *)

Lemma empty_canvas_world_constructed :
  GlueTexture_new demo_shaders [] demo_glue (Some empty_canvas)
  = (Normal (self empty_canvas_world), calls empty_canvas_world).
Proof. vm_compute. reflexivity. Qed.

Example glueGetWebGLContext_legacy :
  glueGetWebGLContext legacy_getContext demo_canvas
    (Some {[ "premultipliedAlpha" := boolean true; "alpha" := boolean true ]})
  = (Normal 1%N,
     Some {[ "premultipliedAlpha" := boolean false; "alpha" := boolean true ]}).
Proof. vm_compute. reflexivity. Qed.

Lemma glow_not_inherited : "glow" ∉ Object_prototype.
Proof. apply (bool_decide_unpack _). vm_compute. exact I. Defined.

Lemma constructor_inherited : "constructor" ∈ Object_prototype.
Proof. apply (bool_decide_unpack _). vm_compute. exact I. Defined.

(** [deregisterProgram('glow')] and [deregisterProgram('constructor')] on
    the demo texture, on which neither name is registered. *)
Lemma deregisterProgram_absent_demo :
  deregisterProgram "glow" demo_world = (Normal (), demo_world)
  ∧ deregisterProgram "constructor" demo_world
    = (Throw NotAFunction, demo_world).
Proof.
split.
- exact (proj1 (deregisterProgram_absent demo_world "glow" eq_refl eq_refl)
           glow_not_inherited).
- exact (proj2 (deregisterProgram_absent demo_world "constructor" eq_refl
                  eq_refl) constructor_inherited).
Defined.

Lemma deregisterProgram_present_demo :
  ∃ w' : World,
    deregisterProgram "~blend_screen" demo_world = (Normal (), w')
    ∧ calls w' = calls demo_world ++
        [GlueProgram_dispose (demo_program "void main() { screen(); }")]
    ∧ hasProgram "~blend_screen" w' = (Normal false, w')
    ∧ _programs (self w') !! "~blend_multiply"
      = Some (demo_program "void main() { multiply(); }").
Proof.
destruct (deregisterProgram_present demo_world "~blend_screen"
            (demo_program "void main() { screen(); }") eq_refl
            (blend_name_own "screen") eq_refl)
  as (w' & Hrun & Hcalls & Hhas & _ & Hothers & _).
exists w'. split; [exact Hrun|]. split; [exact Hcalls|]. split; [exact Hhas|].
rewrite Hothers; [reflexivity|]. intros [=].
Defined.

Lemma deregister_then_register_demo :
  ∃ (p : GlueProgram) (w' : World),
    (deregisterProgram "~default";;
     registerProgram demo_shaders "~default" (Some "void main() {}") None)
      demo_world
    = (Normal p, w')
    ∧ fragmentShader p = "void main() {}"
    ∧ _programs (self w') !! "~default" = Some p.
Proof.
destruct (deregister_then_register demo_shaders demo_world "~default"
            (demo_program "void main() { fragment(); }")
            (Some "void main() {}") None eq_refl default_name_own eq_refl)
  as (p & w' & Hrun & -> & Hp & _).
eexists _, w'. split; [exact Hrun|]. split; [reflexivity|exact Hp].
Defined.

Lemma register_deregister_roundtrip_demo :
  ∃ p : GlueProgram,
    (registerProgram demo_shaders "glow" (Some "void main() { glow(); }") None;;
     deregisterProgram "glow") demo_world
    = (Normal (),
       {| self := demo_texture;
          calls := calls demo_world
                   ++ [GlueProgram_new p; GlueProgram_dispose p] |}).
Proof.
exact (register_deregister_roundtrip demo_shaders demo_world "glow"
         (Some "void main() { glow(); }") None eq_refl eq_refl).
Defined.

Lemma update_loaded_source_demo :
  ∃ w' : World,
    update (Some demo_video) demo_world = (Normal (), w')
    ∧ _source (self w') = demo_video
    ∧ (_width (self w'), _height (self w')) = (640, 360)%float
    ∧ _programs (self w') = _programs demo_texture.
Proof.
destruct (update_loaded_source demo_world demo_video eq_refl eq_refl)
  as (w' & Hrun & Hsource & Hdims & _ & Hprograms & _).
exists w'. split; [exact Hrun|]. split; [exact Hsource|].
split; [exact Hdims|exact Hprograms].
Defined.

Lemma Reachable_consistent_demo :
  (_width demo_texture, _height demo_texture)
  = glueGetSourceDimensions demo_image
  ∧ glueIsSourceLoaded (Some demo_image) = true
  ∧ _texture demo_texture = 7%N
  ∧ _disposed demo_texture = false.
Proof.
exact (Reachable_consistent demo_shaders demo_world demo_world_reachable).
Defined.

Lemma failed_call_changes_nothing_demo :
  (invoke demo_shaders (call_update (Some pending_image)) demo_world).2
  = demo_world
  ∧ (invoke demo_shaders (call_deregisterProgram "constructor") demo_world).2
    = demo_world.
Proof.
split.
- exact (proj2 (failed_call_changes_nothing demo_shaders
                  (call_update (Some pending_image)) demo_world
                  SourceNotReady eq_refl)).
- exact (proj2 (failed_call_changes_nothing demo_shaders
                  (call_deregisterProgram "constructor") demo_world
                  NotAFunction eq_refl)).
Defined.

Lemma use_then_draw_demo :
  ∃ (unit : number) (u : Uniforms),
    (use (Some TEXTURE2);; draw demo_shaders no_options) demo_world
    = (Normal (),
       {| self := demo_texture;
          calls := calls demo_world ++
            [gl_activeTexture unit;
             gl_bindTexture GL.TEXTURE_2D 7%N;
             gl_activeTexture GL.TEXTURE1;
             gl_bindTexture GL.TEXTURE_2D 7%N;
             GlueProgram_apply (demo_program "void main() { normal(); }")
               (Some u) None] |})
    ∧ iImage u = 1%float
    ∧ unit = TEXTURE2.
Proof.
destruct (use_then_draw demo_shaders demo_world (Some TEXTURE2) no_options
            (demo_program "void main() { normal(); }") eq_refl eq_refl)
  as (unit & u & Hrun & Himage & Hunit & _).
exists unit, u. split; [exact Hrun|]. split; [exact Himage|].
apply Hunit; reflexivity.
Defined.

Lemma deregister_blend_then_draw_demo :
  ((deregisterProgram "~blend_normal";; draw demo_shaders no_options)
     demo_world).1
  = Throw InvalidBlendMode.
Proof.
exact (deregister_blend_then_draw demo_shaders demo_world no_options eq_refl).
Defined.

Lemma custom_blend_mode_demo :
  ∃ (p : GlueProgram) (u : Uniforms) (w' : World),
    (registerProgram demo_shaders "~blend_nonexistent"
       (Some "void main() { glow(); }") None;;
     draw demo_shaders nonexistent_options) demo_world
    = (Normal (), w')
    ∧ fragmentShader p = "void main() { glow(); }"
    ∧ calls w' = calls demo_world ++
        [GlueProgram_new p;
         gl_activeTexture GL.TEXTURE1;
         gl_bindTexture GL.TEXTURE_2D 7%N;
         GlueProgram_apply p (Some u) None].
Proof.
destruct (custom_blend_mode demo_shaders demo_world nonexistent_options
            "nonexistent" (Some "void main() { glow(); }") None
            eq_refl eq_refl eq_refl)
  as (p & u & w' & Hrun & Hfragment & _ & _ & Hcalls).
exists p, u, w'. split; [exact Hrun|]. split; [exact Hfragment|exact Hcalls].
Defined.

Lemma draw_zero_width_offset_demo :
  ∃ u : Uniforms,
    draw demo_shaders no_options empty_canvas_world
    = (Normal (),
       {| self := self empty_canvas_world;
          calls := calls empty_canvas_world ++
            [gl_activeTexture GL.TEXTURE1;
             gl_bindTexture GL.TEXTURE_2D 7%N;
             GlueProgram_apply (demo_program "void main() { normal(); }")
               (Some u) None] |})
    ∧ PrimFloat.is_nan (iOffset u).1 = true.
Proof.
exact (draw_zero_width_offset demo_shaders empty_canvas_world no_options
         (demo_program "void main() { normal(); }")
         eq_refl eq_refl (or_introl eq_refl) eq_refl).
Defined.

Lemma deregisterImport_removes_demo :
  ∃ w' : World,
    deregisterImport "foo" demo_world = (Normal (), w')
    ∧ _imports (self w') !! "foo" = None
    ∧ calls w' = calls demo_world.
Proof.
destruct (deregisterImport_removes demo_shaders demo_world "foo" eq_refl)
  as (w' & Hrun & Hfoo & _ & _ & Hcalls & _).
exists w'. split; [exact Hrun|]. split; [exact Hfoo|exact Hcalls].
Defined.

Lemma import_roundtrip_demo :
  (registerImport "foo" "float foo() { return 1.0; }";;
   deregisterImport "foo") demo_world
  = (Normal (), demo_world)
  ∧ deregisterImport "foo" demo_world = (Normal (), demo_world).
Proof.
exact (import_roundtrip demo_world "foo" "float foo() { return 1.0; }"
         eq_refl eq_refl).
Defined.

Lemma repeating_modes_repeat : ¬ NoDup (GlueBlendMode repeating_shaders).
Proof. apply (bool_decide_unpack _). vm_compute. exact I. Defined.

Lemma constructor_repeated_mode_demo :
  ∃ m, m ∈ ["normal"; "multiply"; "normal"]
       ∧ (GlueTexture_new repeating_shaders [] demo_glue (Some demo_image)).1
         = Throw (DuplicateName ("~blend_" +:+ m)).
Proof.
exact (constructor_repeated_mode repeating_shaders [] demo_glue demo_image
         repeating_modes_repeat eq_refl).
Defined.

Lemma demo_normal_enumerated :
  GlueBlendMode_NORMAL demo_shaders ∈ GlueBlendMode demo_shaders.
Proof. apply list_elem_of_here. Defined.

Lemma new_texture_draws_demo :
  ∃ (t : GlueTexture) (gl' : list Call),
    GlueTexture_new demo_shaders [] demo_glue (Some demo_image)
    = (Normal t, gl')
    ∧ draw demo_shaders no_options {| self := t; calls := gl' |}
      = (Normal (),
         {| self := t;
            calls := gl' ++
              [gl_activeTexture GL.TEXTURE1;
               gl_bindTexture GL.TEXTURE_2D 7%N;
               GlueProgram_apply (demo_program "void main() { normal(); }")
                 (Some {| iImage := 1;
                          iSize := (200, 100)%float;
                          iOffset := (0, 0)%float;
                          iOpacity := 1 |})
                 None] |}).
Proof.
exact (new_texture_draws demo_shaders [] demo_glue demo_image
         demo_modes_distinct demo_normal_enumerated eq_refl).
Defined.
